(** * Backpacking-Assistant-Agent: a shallow embedding of the job registry,
    the response extractors and the generation pipelines of the API
    service (apps/api), with the properties of its specification. *)

From Stdlib Require Import String Ascii ZArith QArith Qround List Lia Sorting.Sorted.
From stdpp Require Import base gmap strings list.

Open Scope string_scope.
Set Warnings "-register-all".

(* ================================================================== *)
(** ** Job registry (services/job_service.py, class JobService) *)

(** A job record, the dict stored in [JobService._jobs].  [result] is a
    small dict of integers ({"num_days": n}, {"items_count": n},
    {"tasks_count": n}); timestamps are the ISO strings of
    [datetime.utcnow().isoformat()], passed in as [now]. *)
Record Job := mkJob {
  job_id : string;
  trip_id : string;
  job_type : string;
  status : string;
  progress : Z;
  message : option string;
  result : option (list (string * Z));
  error : option string;
  created_at : string;
  updated_at : string
}.

(** [self._jobs]: the in-memory map from job id to record. *)
Abbreviation Jobs := (gmap string Job).

Module JobService.

(** [create_job]: the fresh [uuid4] is the argument [jid]. *)
Definition create_job (jobs : Jobs) (jid tid jtype now : string) : Jobs :=
  <[jid := mkJob jid tid jtype "pending" 0 (Some "Job created") None None now now]> jobs.

(** [update_job_status]: unknown id is a no-op (a warning is printed);
    otherwise [dict.update] overwrites the six mutable fields. *)
Definition update_job_status (jobs : Jobs) (jid st : string) (prog : Z)
    (msg : option string) (res : option (list (string * Z)))
    (err : option string) (now : string) : Jobs :=
  match jobs !! jid with
  | None => jobs
  | Some j =>
      <[jid := mkJob (job_id j) (trip_id j) (job_type j) st prog msg res err
                     (created_at j) now]> jobs
  end.

(** [get_job_status]: the stored record, or [None]. *)
Definition get_job_status (jobs : Jobs) (jid : string) : option Job :=
  jobs !! jid.

End JobService.

(* ================================================================== *)
(** ** Python string helpers (ASCII model of [str]) *)

Module PyStr.

(** [str.isspace] on one ASCII character: \t \n \v \f \r, the
    separators \x1c..\x1f and the space. *)
Definition is_space (c : ascii) : bool :=
  let n := nat_of_ascii c in
  ((9 <=? n) && (n <=? 13) || (28 <=? n) && (n <=? 32))%nat.

Fixpoint lstrip (s : string) : string :=
  match s with
  | EmptyString => EmptyString
  | String c r => if is_space c then lstrip r else s
  end.

Fixpoint rstrip (s : string) : string :=
  match s with
  | EmptyString => EmptyString
  | String c r =>
      let r' := rstrip r in
      if is_space c && String.eqb r' EmptyString then EmptyString else String c r'
  end.

(** [str.strip()] *)
Definition strip (s : string) : string := rstrip (lstrip s).

(** [str.lower()] on ASCII: A..Z to a..z. *)
Definition lower_char (c : ascii) : ascii :=
  let n := nat_of_ascii c in
  if ((65 <=? n) && (n <=? 90))%nat then ascii_of_nat (n + 32) else c.

Fixpoint lower (s : string) : string :=
  match s with
  | EmptyString => EmptyString
  | String c r => String (lower_char c) (lower r)
  end.

(** The rest of [s] after the prefix [p], when [p] is a prefix of [s]. *)
Fixpoint strip_prefix (p s : string) : option string :=
  match p with
  | EmptyString => Some s
  | String c p' =>
      match s with
      | String d s' => if Ascii.eqb c d then strip_prefix p' s' else None
      | EmptyString => None
      end
  end.

(** [sub in s] *)
Fixpoint contains (sub s : string) : bool :=
  match strip_prefix sub s with
  | Some _ => true
  | None => match s with EmptyString => false | String _ r => contains sub r end
  end.

(** The text before the first occurrence of [sep] and the text after
    it, or [None] when [sep] does not occur. *)
Fixpoint split_first (sep s : string) : option (string * string) :=
  match strip_prefix sep s with
  | Some rest => Some (EmptyString, rest)
  | None =>
      match s with
      | EmptyString => None
      | String c r =>
          match split_first sep r with
          | Some (a, b) => Some (String c a, b)
          | None => None
          end
      end
  end.

(** [s.split(sep)[0]] *)
Definition split_head (sep s : string) : string :=
  match split_first sep s with Some (a, _) => a | None => s end.

(** [s.split(sep)[1]]: the text between the first and the second
    occurrence of [sep].  Python raises [IndexError] when [sep] does not
    occur; the callers test [sep in s] first, and the model returns the
    empty string there. *)
Definition split_second (sep s : string) : string :=
  match split_first sep s with
  | Some (_, rest) => split_head sep rest
  | None => EmptyString
  end.

End PyStr.

(* ================================================================== *)
(** ** JSON values and [json.loads] *)

(** A decoded JSON value.  A number keeps its lexeme (the text the
    scanner matched, [NaN], [Infinity] and [-Infinity] included); an
    object keeps its members in order, [dict] lookups take the last
    binding of a key as [json.loads] does. *)
Inductive JVal :=
  | JNull
  | JBool (b : bool)
  | JNum (lexeme : string)
  | JStr (s : string)
  | JArr (l : list JVal)
  | JObj (kv : list (string * JVal)).

Module Json.
Local Open Scope char_scope.

(** JSON insignificant whitespace: space, \t, \n, \r. *)
Definition is_ws (c : ascii) : bool :=
  match nat_of_ascii c with 32 | 9 | 10 | 13 => true | _ => false end.

Fixpoint skip_ws (s : list ascii) : list ascii :=
  match s with
  | c :: r => if is_ws c then skip_ws r else s
  | [] => []
  end.

Definition is_digit (c : ascii) : bool :=
  let n := nat_of_ascii c in ((48 <=? n) && (n <=? 57))%nat.

Fixpoint digits (s : list ascii) : list ascii * list ascii :=
  match s with
  | c :: r => if is_digit c then let '(d, r') := digits r in (c :: d, r') else ([], s)
  | [] => ([], [])
  end.

Definition hex_val (c : ascii) : option nat :=
  let n := nat_of_ascii c in
  if ((48 <=? n) && (n <=? 57))%nat then Some (n - 48)
  else if ((97 <=? n) && (n <=? 102))%nat then Some (n - 87)
  else if ((65 <=? n) && (n <=? 70))%nat then Some (n - 55)
  else None.

(** The number regex of the scanner: an optional minus, then [0] or a
    non-zero digit followed by digits, then an optional fraction (a dot
    and at least one digit), then an optional exponent ([e] or [E], an
    optional sign, at least one digit). *)
Definition pnumber (s : list ascii) : option (list ascii * list ascii) :=
  let '(sign, s1) := match s with "-" :: r => (["-"], r) | _ => ([], s) end in
  let int_part :=
    match s1 with
    | "0" :: r => Some (["0"], r)
    | c :: _ => if is_digit c then Some (digits s1) else None
    | [] => None
    end in
  match int_part with
  | None => None
  | Some (ip, s2) =>
      let '(fp, s3) :=
        match s2 with
        | "." :: r =>
            match digits r with
            | ([], _) => ([], s2)
            | (d, r') => ("." :: d, r')
            end
        | _ => ([], s2)
        end in
      let '(ep, s4) :=
        match s3 with
        | e :: r =>
            if (e =? "e")%char || (e =? "E")%char then
              let '(sg, r1) := match r with
                               | "+" :: r1 => (["+"], r1)
                               | "-" :: r1 => (["-"], r1)
                               | _ => ([], r) end in
              match digits r1 with
              | ([], _) => ([], s3)
              | (d, r') => (e :: (sg ++ d)%list, r')
              end
            else ([], s3)
        | [] => ([], s3)
        end in
      Some ((sign ++ ip ++ fp ++ ep)%list, s4)
  end.

(** The body of a string literal after its opening quote (strict mode:
    raw control characters are refused).  A [\uXXXX] escape below 256
    decodes to that character; above, it is kept as written. *)
Fixpoint pstring (s : list ascii) : option (list ascii * list ascii) :=
  match s with
  | [] => None
  | c :: r =>
      if (c =? "034")%char then Some ([], r)
      else if (nat_of_ascii c <? 32)%nat then None
      else if (c =? "\")%char then
        match r with
        | e :: r' =>
            let simple x := option_map (fun '(b, t) => (x :: b, t)) (pstring r') in
            if (e =? "034")%char then simple "034"
            else if (e =? "\")%char then simple "\"
            else if (e =? "/")%char then simple "/"
            else if (e =? "b")%char then simple "008"
            else if (e =? "f")%char then simple "012"
            else if (e =? "n")%char then simple "010"
            else if (e =? "r")%char then simple "013"
            else if (e =? "t")%char then simple "009"
            else if (e =? "u")%char then
              match r' with
              | h1 :: h2 :: h3 :: h4 :: r'' =>
                  match hex_val h1, hex_val h2, hex_val h3, hex_val h4 with
                  | Some a, Some b, Some c', Some d =>
                      let code := ((a * 16 + b) * 16 + c') * 16 + d in
                      let dec := if (code <? 256)%nat then [ascii_of_nat code]
                                 else ["\"; "u"; h1; h2; h3; h4] in
                      option_map (fun '(t, t') => ((dec ++ t)%list, t')) (pstring r'')
                  | _, _, _, _ => None
                  end
              | _ => None
              end
            else None
        | [] => None
        end
      else option_map (fun '(t, t') => (c :: t, t')) (pstring r)
  end.

(** [lit p s]: the rest of [s] after the literal [p], when [s] starts
    with it. *)
Fixpoint lit (p s : list ascii) : option (list ascii) :=
  match p, s with
  | [], _ => Some s
  | c :: p', d :: s' => if (c =? d)%char then lit p' s' else None
  | _ :: _, [] => None
  end.

Definition chars (s : string) : list ascii := list_ascii_of_string s.

(** The scanner of [json.decoder], with a fuel bound: every two levels
    of recursion consume at least one character, so [json_loads] below
    passes enough fuel for its whole input. *)
Fixpoint pval (fuel : nat) (s : list ascii) {struct fuel} : option (JVal * list ascii) :=
  match fuel with
  | O => None
  | S f =>
    match s with
    | [] => None
    | c :: r =>
      if (c =? "034")%char then
        option_map (fun '(b, r') => (JStr (string_of_list_ascii b), r')) (pstring r)
      else if (c =? "[")%char then
        option_map (fun '(l, r') => (JArr l, r')) (parr f (skip_ws r))
      else if (c =? "{")%char then
        option_map (fun '(kv, r') => (JObj kv, r')) (pobj f (skip_ws r))
      else match lit (chars "null") s with Some r' => Some (JNull, r') | None =>
           match lit (chars "true") s with Some r' => Some (JBool true, r') | None =>
           match lit (chars "false") s with Some r' => Some (JBool false, r') | None =>
           match lit (chars "NaN") s with Some r' => Some (JNum "NaN", r') | None =>
           match lit (chars "Infinity") s with Some r' => Some (JNum "Infinity", r') | None =>
           match lit (chars "-Infinity") s with Some r' => Some (JNum "-Infinity", r') | None =>
             option_map (fun '(lx, r') => (JNum (string_of_list_ascii lx), r')) (pnumber s)
           end end end end end end
    end
  end
with parr (fuel : nat) (s : list ascii) {struct fuel} : option (list JVal * list ascii) :=
  match fuel with
  | O => None
  | S f =>
    match lit ["]"] s with
    | Some r => Some ([], r)
    | None =>
        match pval f s with
        | Some (v, r) => parr_more f [v] (skip_ws r)
        | None => None
        end
    end
  end
with parr_more (fuel : nat) (acc : list JVal) (s : list ascii) {struct fuel}
    : option (list JVal * list ascii) :=
  match fuel with
  | O => None
  | S f =>
    match lit [","] s with
    | Some r =>
        match pval f (skip_ws r) with
        | Some (v, r') => parr_more f (acc ++ [v])%list (skip_ws r')
        | None => None
        end
    | None => match lit ["]"] s with Some r => Some (acc, r) | None => None end
    end
  end
with pobj (fuel : nat) (s : list ascii) {struct fuel}
    : option (list (string * JVal) * list ascii) :=
  match fuel with
  | O => None
  | S f =>
    match lit ["}"] s with
    | Some r => Some ([], r)
    | None =>
        match lit ["034"] s with
        | Some r =>
            match pmember f r with
            | Some (kv, r') => pobj_more f [kv] (skip_ws r')
            | None => None
            end
        | None => None
        end
    end
  end
with pmember (fuel : nat) (s : list ascii) {struct fuel}
    : option ((string * JVal) * list ascii) :=
  match fuel with
  | O => None
  | S f =>
    match pstring s with
    | Some (k, r) =>
        match lit [":"] (skip_ws r) with
        | Some r' =>
            match pval f (skip_ws r') with
            | Some (v, r'') => Some ((string_of_list_ascii k, v), r'')
            | None => None
            end
        | None => None
        end
    | None => None
    end
  end
with pobj_more (fuel : nat) (acc : list (string * JVal)) (s : list ascii) {struct fuel}
    : option (list (string * JVal) * list ascii) :=
  match fuel with
  | O => None
  | S f =>
    match lit [","] s with
    | Some r =>
        match lit ["034"] (skip_ws r) with
        | Some r' =>
            match pmember f r' with
            | Some (kv, r'') => pobj_more f (acc ++ [kv])%list (skip_ws r'')
            | None => None
            end
        | None => None
        end
    | None => match lit ["}"] s with Some r => Some (acc, r) | None => None end
    end
  end.

End Json.

(** [json.loads]: leading and trailing JSON whitespace, one value, and
    nothing else ([None] is a [JSONDecodeError]). *)
Definition json_loads (s : string) : option JVal :=
  let cs := Json.chars s in
  match Json.pval (2 * length cs + 2) (Json.skip_ws cs) with
  | Some (v, r) => match Json.skip_ws r with [] => Some v | _ => None end
  | None => None
  end.

(** [dict.get(key, default)] on a decoded object: the last binding. *)
Definition jget (kv : list (string * JVal)) (k : string) (dflt : JVal) : JVal :=
  fold_left (fun acc '(k', v) => if String.eqb k k' then v else acc) kv dflt.

(** [d[key] = v] on a decoded object: replaces the binding in place, or
    appends a new one. *)
Definition jset (kv : list (string * JVal)) (k : string) (v : JVal) : list (string * JVal) :=
  if existsb (fun '(k', _) => String.eqb k k') kv
  then map (fun '(k', v') => if String.eqb k k' then (k', v) else (k', v')) kv
  else (kv ++ [(k, v)])%list.

(* ================================================================== *)
(** ** Python values shared by the agents *)

(** The outcome of a Python call: a value, or an exception with the text
    of [str(e)]. *)
Inductive PyRes (A : Type) :=
  | POk (a : A)
  | PExc (e : string).
Arguments POk {A} a.
Arguments PExc {A} e.

(** [str(n)] for a natural number. *)
Fixpoint dec_aux (fuel n : nat) (acc : string) : string :=
  match fuel with
  | O => acc
  | S f =>
      let acc' := String (ascii_of_nat (48 + n mod 10)) acc in
      if (n <? 10)%nat then acc' else dec_aux f (n / 10) acc'
  end.
Definition str_of_nat (n : nat) : string := dec_aux (S n) n EmptyString.
Definition str_of_Z (z : Z) : string :=
  if (z <? 0)%Z then "-" ++ str_of_nat (Z.to_nat (- z)) else str_of_nat (Z.to_nat z).

(** A decoded itinerary item or database row: a dict of JSON values. *)
Abbreviation Item := (list (string * JVal)).

(** A calendar date, as [datetime.fromisoformat] reads a trip's
    [start_date]/[end_date] column. *)
Record Date := mkDate { year : Z; month : Z; mday : Z }.

(** Days since 1970-01-01 of a proleptic Gregorian date (the day count
    behind [date - date] and [date + timedelta]). *)
Definition days_from_civil (dt : Date) : Z :=
  let y := (year dt - (if (month dt <=? 2)%Z then 1 else 0))%Z in
  let era := (y / 400)%Z in
  let yoe := (y - era * 400)%Z in
  let mp := (if (month dt >? 2)%Z then month dt - 3 else month dt + 9)%Z in
  let doy := ((153 * mp + 2) / 5 + mday dt - 1)%Z in
  let doe := (yoe * 365 + yoe / 4 - yoe / 100 + doy)%Z in
  (era * 146097 + doe - 719468)%Z.

Definition civil_from_days (z0 : Z) : Date :=
  let z := (z0 + 719468)%Z in
  let era := (z / 146097)%Z in
  let doe := (z - era * 146097)%Z in
  let yoe := ((doe - doe / 1460 + doe / 36524 - doe / 146096) / 365)%Z in
  let doy := (doe - (365 * yoe + yoe / 4 - yoe / 100))%Z in
  let mp := ((5 * doy + 2) / 153)%Z in
  let d := (doy - (153 * mp + 2) / 5 + 1)%Z in
  let m := (if (mp <? 10)%Z then mp + 3 else mp - 9)%Z in
  mkDate (yoe + era * 400 + (if (m <=? 2)%Z then 1 else 0))%Z m d.

Definition pad2 (z : Z) : string :=
  if (z <? 10)%Z then "0" ++ str_of_Z z else str_of_Z z.

(** [strftime("%Y-%m-%d")] (four-digit years). *)
Definition fmt_date (dt : Date) : string :=
  str_of_Z (year dt) ++ "-" ++ pad2 (month dt) ++ "-" ++ pad2 (mday dt).

(** [start + timedelta(days=k)] *)
Definition add_days (dt : Date) (k : Z) : Date :=
  civil_from_days (days_from_civil dt + k).

(** [(end - start).days] *)
Definition days_between (start end_ : Date) : Z :=
  (days_from_civil end_ - days_from_civil start)%Z.

(** The fields of a trip row that the itinerary code reads. *)
Record Trip := mkTrip {
  trip_start : Date;
  trip_end : Date;
  destinations : list string
}.

(** The answer of the text-generation model to one call. *)
Inductive LLMOut :=
  | Raised (e : string)
  | Returned (content : string).

Definition nl : string := String "010"%char EmptyString.

(* ================================================================== *)
(** ** Itinerary agent (services/agents/sub_agents/itinerary_agent.py) *)

Module ItineraryAgent.

(** The body of the [for idx, item in enumerate(items)] loop of
    [_parse_itinerary_response]: [item.get] on a non-dict raises
    [AttributeError]. *)
Definition validate_item (start_date : JVal) (idx : nat) (item : JVal) : PyRes Item :=
  match item with
  | JObj kv =>
      POk [("day_number", jget kv "day_number" (JNum "1"));
           ("date", jget kv "date" start_date);
           ("start_time", jget kv "start_time" (JStr "09:00:00"));
           ("end_time", jget kv "end_time" (JStr "10:00:00"));
           ("title", jget kv "title" (JStr "Activity"));
           ("description", jget kv "description" (JStr ""));
           ("location", jget kv "location" (JStr ""));
           ("type", jget kv "type" (JStr "activity"));
           ("cost", jget kv "cost" (JNum "0"));
           ("order_index", jget kv "order_index" (JNum (str_of_nat idx)))]
  | _ => PExc "object has no attribute 'get'"
  end.

Fixpoint validate_items (start_date : JVal) (idx : nat) (items : list JVal) : PyRes (list Item) :=
  match items with
  | [] => POk []
  | it :: rest =>
      match validate_item start_date idx it with
      | PExc e => PExc e
      | POk v =>
          match validate_items start_date (S idx) rest with
          | PExc e => PExc e
          | POk vs => POk (v :: vs)
          end
      end
  end.

(** The fence removal of [_parse_itinerary_response]. *)
Definition clean_fences (response_text : string) : string :=
  let cleaned := PyStr.strip response_text in
  if PyStr.contains "```json" cleaned then
    PyStr.strip (PyStr.split_head "```" (PyStr.split_second "```json" cleaned))
  else if PyStr.contains "```" cleaned then
    PyStr.strip (PyStr.split_head "```" (PyStr.split_second "```" cleaned))
  else cleaned.

(** [_parse_itinerary_response(response_text, trip_data)]: the JSON
    decode error and the [ValueError] for a non-list are re-raised;
    [start_date] is [trip_data.get("start_date")]. *)
Definition parse_itinerary_response (response_text : string) (start_date : JVal)
    : PyRes (list Item) :=
  match json_loads (clean_fences response_text) with
  | None => PExc "JSONDecodeError"
  | Some (JArr items) => validate_items start_date 0 items
  | Some _ => PExc "Response is not a list"
  end.

(** [re.sub(r'```(?:json)?\s*', '', text)]: every triple backtick is
    removed together with a [json] right after it and the whitespace
    that follows.  [fuel] bounds the scan by the length of the text. *)
Fixpoint remove_fence_marks (fuel : nat) (s : string) : string :=
  match fuel with
  | O => s
  | S f =>
      match PyStr.strip_prefix "```" s with
      | Some r =>
          let r1 := match PyStr.strip_prefix "json" r with Some r' => r' | None => r end in
          remove_fence_marks f (PyStr.lstrip r1)
      | None =>
          match s with
          | EmptyString => EmptyString
          | String c r => String c (remove_fence_marks f r)
          end
      end
  end.

(** The loop [for i, item in enumerate(items): item['day_number'] = ...]
    of [_parse_single_day_response] on the decoded value.  A list of
    dicts is tagged; an empty dict or an empty string is returned as is
    and holds no items; any other value makes the assignment (or
    [enumerate]) raise [TypeError]. *)
Fixpoint tag_items (day_number : nat) (date : string) (i : nat) (items : list JVal)
    : PyRes (list Item) :=
  match items with
  | [] => POk []
  | JObj kv :: rest =>
      match tag_items day_number date (S i) rest with
      | PExc e => PExc e
      | POk vs =>
          POk (jset (jset (jset kv "day_number" (JNum (str_of_nat day_number)))
                          "date" (JStr date))
                    "order_index" (JNum (str_of_nat i)) :: vs)
      end
  | _ :: _ => PExc "TypeError"
  end.

Definition tag_decoded (day_number : nat) (date : string) (v : JVal) : PyRes (list Item) :=
  match v with
  | JArr l => tag_items day_number date 0 l
  | JObj [] => POk []
  | JStr EmptyString => POk []
  | _ => PExc "TypeError"
  end.

(** The one item of [_get_fallback_day], for [destination = destinations[0]]. *)
Definition fallback_item (destination : string) (day_number : nat) (date : string) : Item :=
  [("day_number", JNum (str_of_nat day_number));
   ("date", JStr date);
   ("start_time", JStr "09:00:00");
   ("end_time", JStr "17:00:00");
   ("title", JStr ("Explore " ++ destination));
   ("description", JStr ("Spend the day exploring " ++ destination ++
                         " and its main attractions."));
   ("location", JStr destination);
   ("type", JStr "activity");
   ("cost", JNum "0");
   ("order_index", JNum "0")].

(** [_get_fallback_day]: [destinations[0]] raises [IndexError] on an
    empty list. *)
Definition get_fallback_day (trip : Trip) (day_number : nat) (date : string) : PyRes (list Item) :=
  match destinations trip with
  | [] => PExc "list index out of range"
  | destination :: _ => POk [fallback_item destination day_number date]
  end.

(** [_parse_single_day_response]: any exception of the decode or of the
    tagging loop falls back to [_get_fallback_day]. *)
Definition parse_single_day_response (response_text : string) (trip : Trip)
    (day_number : nat) (date : string) : PyRes (list Item) :=
  let cleaned := PyStr.strip (remove_fence_marks (String.length response_text) response_text) in
  match json_loads cleaned with
  | None => get_fallback_day trip day_number date
  | Some v =>
      match tag_decoded day_number date v with
      | POk items => POk items
      | PExc _ => get_fallback_day trip day_number date
      end
  end.

(** [generate_single_day(trip_data, day_number, previous_days_summary)].
    [answer] is the model's reply to the prompt of this day (built from
    the trip, the day and the summary).  An exception of the call or of
    the parse falls back to [_get_fallback_day]; an exception raised by
    the fallback itself propagates. *)
Definition generate_single_day (trip : Trip) (day_number : nat) (answer : LLMOut)
    : PyRes (list Item) :=
  let date := fmt_date (add_days (trip_start trip) (Z.of_nat day_number - 1)) in
  match answer with
  | Raised _ => get_fallback_day trip day_number date
  | Returned content =>
      match parse_single_day_response content trip day_number date with
      | POk items => POk items
      | PExc _ => get_fallback_day trip day_number date
      end
  end.

(** [modify_itinerary(existing_items, modification_request, trip_data)]:
    [answer] is the model's reply to the modification prompt; every
    exception of the call or of the parse returns [existing_items]
    unchanged. *)
Definition modify_itinerary (existing_items : list Item) (trip : Trip) (answer : LLMOut)
    : list Item :=
  match answer with
  | Raised _ => existing_items
  | Returned content =>
      match parse_itinerary_response content (JStr (fmt_date (trip_start trip))) with
      | POk items => items
      | PExc _ => existing_items
      end
  end.

End ItineraryAgent.

(* ================================================================== *)
(** ** Background pipelines (routers/itinerary.py) *)

Module Pipeline.

(** A write to the [itinerary_items] table. *)
Inductive StoreEv :=
  | EvInsert (tid : string) (rows : list Item)
  | EvDelete (tid : string).

(** The state a background worker threads: the job registry, the rows
    of [itinerary_items] (with their trip id), the log of table writes,
    and the sequence of [(job id, status, progress)] arguments of the
    [update_job_status] calls. *)
Record St := mkSt {
  jobs : Jobs;
  db : list (string * Item);
  store_log : list StoreEv;
  trace : list (string * string * Z)
}.

(** A state-and-exception monad: a Python coroutine body. *)
Definition M (A : Type) := St -> PyRes A * St.

Definition ret {A} (a : A) : M A := fun s => (POk a, s).
Definition bind {A B} (m : M A) (k : A -> M B) : M B :=
  fun s => match m s with
           | (POk a, s') => k a s'
           | (PExc e, s') => (PExc e, s')
           end.
Definition raise {A} (e : string) : M A := fun s => (PExc e, s).
(** [try: m except Exception as e: h(str(e))] *)
Definition try_except {A} (m : M A) (h : string -> M A) : M A :=
  fun s => match m s with
           | (PExc e, s') => h e s'
           | r => r
           end.
Definition lift {A} (r : PyRes A) : M A :=
  match r with POk a => ret a | PExc e => raise e end.

Notation "'let*' x ':=' m 'in' k" := (bind m (fun x => k))
  (at level 200, x name, m at level 100, k at level 200).

(** [await job_service.update_job_status(...)] *)
Definition update (jid st : string) (prog : Z) (msg : option string)
    (res : option (list (string * Z))) (err : option string) (now : string) : M unit :=
  fun s => (POk tt,
            mkSt (JobService.update_job_status (jobs s) jid st prog msg res err now)
                 (db s) (store_log s) (trace s ++ [(jid, st, prog)])%list).

(** The row [save_itinerary_items] builds from one item. *)
Definition to_db_row (tid : string) (item : Item) : Item :=
  [("trip_id", JStr tid);
   ("day_number", jget item "day_number" JNull);
   ("date", jget item "date" JNull);
   ("start_time", jget item "start_time" JNull);
   ("end_time", jget item "end_time" JNull);
   ("title", jget item "title" JNull);
   ("description", jget item "description" JNull);
   ("location", jget item "location" JNull);
   ("type", jget item "type" JNull);
   ("cost", jget item "cost" (JNum "0"));
   ("order_index", jget item "order_index" (JNum "0"))].

(** [await job_service.save_itinerary_items(trip_id, items)]: one
    insert of all rows; [fail] is the error the insert raises, if any. *)
Definition save_itinerary_items (tid : string) (items : list Item) (fail : option string) : M unit :=
  match fail with
  | Some e => raise e
  | None =>
      let rows := map (to_db_row tid) items in
      fun s => (POk tt,
                mkSt (jobs s) (db s ++ map (fun r => (tid, r)) rows)%list
                     (store_log s ++ [EvInsert tid rows])%list (trace s))
  end.

(** [supabase.table("itinerary_items").delete().eq("trip_id", trip_id).execute()] *)
Definition delete_items (tid : string) (fail : option string) : M unit :=
  match fail with
  | Some e => raise e
  | None =>
      fun s => (POk tt,
                mkSt (jobs s) (filter (fun '(t, _) => negb (String.eqb t tid)) (db s))
                     (store_log s ++ [EvDelete tid])%list (trace s))
  end.

(** [supabase.table("itinerary_items").select("*").eq("trip_id", trip_id)] *)
Definition select_items (tid : string) : M (list Item) :=
  fun s => (POk (map snd (filter (fun '(t, _) => String.eqb t tid) (db s))), s).

(** [", ".join(item.get('title', '') for item in items)]: a title that
    is not a string makes [join] raise [TypeError]. *)
Fixpoint titles (items : list Item) : M (list string) :=
  match items with
  | [] => ret []
  | it :: rest =>
      match jget it "title" (JStr "") with
      | JStr t => let* ts := titles rest in ret (t :: ts)
      | _ => raise "sequence item: expected str instance"
      end
  end.

Fixpoint join (sep : string) (l : list string) : string :=
  match l with
  | [] => EmptyString
  | [x] => x
  | x :: rest => x ++ sep ++ join sep rest
  end.

Definition check_mark : string := String "226" (String "156" (String "147" EmptyString)).

Section Generate.
Variables (job_id tid now : string).
(** [answer d summary]: the model's reply for day [d] given the rolling
    summary of the earlier days. *)
Variable answer : nat -> string -> LLMOut.
(** [save_fail d]: the error the insert of day [d] raises, if any. *)
Variable save_fail : nat -> option string.

(** The [for day in range(1, num_days + 1)] loop, [k] iterations left. *)
Fixpoint day_loop (trip : Trip) (num_days : Z) (k day : nat) (summary : string) : M unit :=
  match k with
  | O => ret tt
  | S k' =>
      let progress_before := (10 + (Z.of_nat day - 1) * (80 / num_days))%Z in
      let* _ := update job_id "processing" progress_before
                  (Some ("Generating Day " ++ str_of_nat day ++ " of " ++ str_of_Z num_days))
                  None None now in
      let* day_items := lift (ItineraryAgent.generate_single_day trip day (answer day summary)) in
      let* _ := save_itinerary_items tid day_items (save_fail day) in
      let progress_after := (10 + Z.of_nat day * (80 / num_days))%Z in
      let* _ := update job_id "processing" progress_after
                  (Some ("Day " ++ str_of_nat day ++ " of " ++ str_of_Z num_days ++
                         " complete " ++ check_mark))
                  None None now in
      let* summary' :=
        match day_items with
        | [] => ret summary
        | _ :: _ =>
            let* ts := titles (firstn 3 day_items) in
            ret (summary ++ "Day " ++ str_of_nat day ++ ": " ++ join ", " ts ++ nl)
        end in
      day_loop trip num_days k' (S day) summary'
  end.

(** The [try:] block of [_generate_itinerary_async(job_id, trip_id,
    job_service)]; [trip] is the row [trips.select("*").eq("id", trip_id)]
    returns. *)
Definition generate_itinerary_body (trip : option Trip) : M unit :=
    (let* _ := update job_id "processing" 5 (Some "Fetching trip details") None None now in
     let* t := match trip with
               | None => raise ("Trip " ++ tid ++ " not found")
               | Some t => ret t
               end in
     let num_days := (days_between (trip_start t) (trip_end t) + 1)%Z in
     let* _ := day_loop t num_days (Z.to_nat num_days) 1 EmptyString in
     update job_id "completed" 100
       (Some ("Generated " ++ str_of_Z num_days ++ "-day itinerary"))
       (Some [("num_days", num_days)]) None now).

(** [_generate_itinerary_async]: the [except Exception as e:] handler
    records the failure with [error=str(e)]. *)
Definition generate_itinerary_async (trip : option Trip) : M unit :=
  try_except (generate_itinerary_body trip)
    (fun e => update job_id "failed" 0 (Some "Failed to generate itinerary") None (Some e) now).

End Generate.

Section Modify.
Variables (job_id tid now : string).
(** The model's reply to the modification prompt. *)
Variable answer : LLMOut.
(** The errors the delete and the insert raise, if any. *)
Variables (delete_fail insert_fail : option string).

(** The [try:] block of [_modify_itinerary_async(job_id, trip_id,
    modification, job_service)]. *)
Definition modify_itinerary_body (trip : option Trip) : M unit :=
    (let* _ := update job_id "processing" 10 (Some "Fetching current itinerary") None None now in
     let* existing_items := select_items tid in
     let* t := match trip with
               | None => raise ("Trip " ++ tid ++ " not found")
               | Some t => ret t
               end in
     let* _ := update job_id "processing" 30 (Some "Modifying itinerary with AI") None None now in
     let modified_items := ItineraryAgent.modify_itinerary existing_items t answer in
     let* _ := update job_id "processing" 80 (Some "Updating database") None None now in
     let* _ := delete_items tid delete_fail in
     let* _ := save_itinerary_items tid modified_items insert_fail in
     update job_id "completed" 100 (Some "Itinerary modified successfully")
       (Some [("items_count", Z.of_nat (length modified_items))]) None now).

(** [_modify_itinerary_async] with its [except] handler. *)
Definition modify_itinerary_async (trip : option Trip) : M unit :=
  try_except (modify_itinerary_body trip)
    (fun e => update job_id "failed" 0 (Some "Failed to modify itinerary") None (Some e) now).

End Modify.

End Pipeline.

(* ================================================================== *)
(** ** Task agent (services/agents/sub_agents/task_agent.py) *)

Module TaskAgent.

(** [v.lower()] on a JSON value: only a [str] has it. *)
Definition lower_of (v : JVal) : PyRes string :=
  match v with
  | JStr s => POk (PyStr.lower s)
  | _ => PExc "object has no attribute 'lower'"
  end.

(** [[task for task in general_tasks
       if task.get("category", "").lower() != "visa"]] *)
Fixpoint drop_visa (tasks : list Item) : PyRes (list Item) :=
  match tasks with
  | [] => POk []
  | t :: rest =>
      match lower_of (jget t "category" (JStr "")) with
      | PExc e => PExc e
      | POk c =>
          match drop_visa rest with
          | PExc e => PExc e
          | POk rest' => POk (if String.eqb c "visa" then rest' else t :: rest')
          end
      end
  end.

(** [any(word in title.lower() for word in ["vaccine", "vaccination",
    "immunization"])]: [title.lower()] is evaluated for the first word. *)
Definition mentions_vaccine (title : JVal) : PyRes bool :=
  match lower_of title with
  | PExc e => PExc e
  | POk t => POk (PyStr.contains "vaccine" t || PyStr.contains "vaccination" t ||
                  PyStr.contains "immunization" t)
  end.

(** [[task for task in general_tasks
       if not (task.get("category", "").lower() == "health" and any(...))]] *)
Fixpoint drop_vaccine (tasks : list Item) : PyRes (list Item) :=
  match tasks with
  | [] => POk []
  | t :: rest =>
      let test :=
        match lower_of (jget t "category" (JStr "")) with
        | PExc e => PExc e
        | POk c => if String.eqb c "health" then mentions_vaccine (jget t "title" (JStr ""))
                   else POk false
        end in
      match test with
      | PExc e => PExc e
      | POk drop =>
          match drop_vaccine rest with
          | PExc e => PExc e
          | POk rest' => POk (if drop then rest' else t :: rest')
          end
      end
  end.

Definition mk_task (title description category priority : string) : Item :=
  [("title", JStr title); ("description", JStr description);
   ("category", JStr category); ("priority", JStr priority);
   ("completed", JBool false)].

Fixpoint transport_tasks (dests : list string) : list Item :=
  match dests with
  | a :: ((b :: _) as rest) =>
      mk_task ("Book transportation from " ++ a ++ " to " ++ b)
              ("Reserve train, bus, or flight from " ++ a ++ " to " ++ b ++
               ". Recommended: 2 weeks before trip") "transportation" "medium"
      :: transport_tasks rest
  | _ => []
  end.

(** [_get_fallback_tasks(trip_data)] *)
Definition get_fallback_tasks (dests : list string) : list Item :=
  let first := match dests with d :: _ => d | [] => "destination" end in
  [mk_task ("Book flights to " ++ first)
           ("Book international flights to " ++ first ++ ". Recommended: 4 weeks before trip")
           "general" "high";
   mk_task "Get travel insurance"
           "Purchase comprehensive travel insurance covering medical, cancellation, and baggage. Recommended: 3 weeks before trip"
           "general" "high"] ++
  map (fun d => mk_task ("Book accommodation in " ++ d)
                        ("Find and reserve lodging in " ++ d ++ ". Recommended: 3 weeks before trip")
                        "accommodation" "high") dests ++
  transport_tasks dests ++
  [mk_task "Notify bank of travel plans"
           "Inform your bank and credit card companies of travel dates to avoid card blocks. Recommended: 1 week before trip"
           "finance" "medium";
   mk_task "Check passport validity"
           "Ensure passport is valid for at least 6 months after trip end date. Recommended: 8 weeks before trip"
           "documentation" "high";
   mk_task "Pack luggage"
           "Pack appropriate clothing and essentials for the trip. Recommended: 2 days before trip"
           "packing" "medium"].

(** [_get_default_fallback_tasks()] *)
Definition get_default_fallback_tasks : list Item :=
  [mk_task "Book international flights"
           "Book flights for your trip. Recommended: 4 weeks before trip" "general" "high";
   mk_task "Book accommodation at destination"
           "Reserve hotels or other lodging. Recommended: 3 weeks before trip" "accommodation" "high";
   mk_task "Get travel insurance"
           "Purchase travel insurance. Recommended: 3 weeks before trip" "general" "high"].

Local Open Scope char_scope.

Fixpoint drop_while {A} (f : A -> bool) (l : list A) : list A :=
  match l with
  | [] => []
  | x :: r => if f x then drop_while f r else l
  end.

(** The prefix of [l] that ends at its last [c], if [c] occurs. *)
Definition upto_last (c : ascii) (l : list ascii) : option (list ascii) :=
  match drop_while (fun d => negb (d =? c)) (rev l) with
  | [] => None
  | r => Some (rev r)
  end.

(** [re.search(r'\[[\s\S]*\]', text).group(0)]: from the first [[] to
    the last []] after it. *)
Definition bracket_span (text : string) : option string :=
  match drop_while (fun d => negb (d =? "[")) (list_ascii_of_string text) with
  | [] => None
  | b :: rest =>
      match upto_last "]" rest with
      | Some body => Some (string_of_list_ascii (b :: body))
      | None => None
      end
  end.
Local Close Scope char_scope.

Definition has_key (kv : list (string * JVal)) (k : string) : bool :=
  existsb (fun '(k', _) => String.eqb k k') kv.

(** The validation loop of [_parse_task_response]: a dict with [title]
    and [category] is kept (reshaped), anything else is skipped. *)
Definition valid_tasks (elems : list JVal) : list Item :=
  flat_map (fun v =>
    match v with
    | JObj kv =>
        if has_key kv "title" && has_key kv "category" then
          [[("title", jget kv "title" (JStr ""));
            ("description", jget kv "description" JNull);
            ("category", jget kv "category" (JStr "general"));
            ("priority", jget kv "priority" (JStr "medium"));
            ("completed", JBool false)]]
        else []
    | _ => []
    end) elems.

(** [_parse_task_response(response_text)]: [for task in tasks] iterates
    a list's elements, a dict's keys or a string's characters (neither
    is a dict), and raises [TypeError] on any other value. *)
Definition parse_task_response (response_text : string) : PyRes (list Item) :=
  match bracket_span response_text with
  | None => POk get_default_fallback_tasks
  | Some json_str =>
      match json_loads json_str with
      | None => POk get_default_fallback_tasks
      | Some v =>
          let elems :=
            match v with
            | JArr l => POk (valid_tasks l)
            | JObj _ | JStr _ => POk []
            | _ => PExc "object is not iterable"
            end in
          match elems with
          | PExc e => PExc e
          | POk [] => POk get_default_fallback_tasks
          | POk vt => POk vt
          end
      end
  end.

(** The general step and the merge of [generate_tasks] (from
    [prompt = self._build_prompt(trip_data)] on): [general] is the
    outcome of [self._parse_task_response(self.model.invoke(...).content)]. *)
Definition merge_tasks (visa_tasks vaccine_tasks : list Item) (general : PyRes (list Item))
    (dests : list string) : list Item :=
  let fallback :=
    let specialized_tasks := (visa_tasks ++ vaccine_tasks)%list in
    match specialized_tasks with
    | [] => get_fallback_tasks dests
    | _ :: _ => (specialized_tasks ++ get_fallback_tasks dests)%list
    end in
  match general with
  | PExc _ => fallback
  | POk general_tasks =>
      let after_visa :=
        match visa_tasks with [] => POk general_tasks | _ :: _ => drop_visa general_tasks end in
      let after_vaccine :=
        match after_visa with
        | PExc e => PExc e
        | POk g => match vaccine_tasks with [] => POk g | _ :: _ => drop_vaccine g end
        end in
      match after_vaccine with
      | PExc _ => fallback
      | POk g => (visa_tasks ++ vaccine_tasks ++ g)%list
      end
  end.

(** [generate_tasks(trip_data, user_citizenship)] given the outcomes of
    the two specialists (each already wrapped in its own [try]) and the
    model's reply to the general prompt. *)
Definition generate_tasks (visa_tasks vaccine_tasks : list Item) (answer : LLMOut)
    (dests : list string) : list Item :=
  merge_tasks visa_tasks vaccine_tasks
    (match answer with
     | Raised e => PExc e
     | Returned content => parse_task_response content
     end) dests.

End TaskAgent.

(** [_generate_tasks_async(job_id, trip_id, job_service)] (routers/tasks.py). *)
Module TaskPipeline.
Import Pipeline.

Section GenerateTasks.
Variables (job_id tid now : string).
(** The specialists' outcomes and the model's reply to the general prompt. *)
Variables (visa_tasks vaccine_tasks : list Item) (answer : LLMOut).
(** The error [save_tasks] raises, if any. *)
Variable save_fail : option string.

(** [await job_service.save_tasks(trip_id, tasks)]: the [tasks] table is
    not part of [St]; only the failure matters here. *)
Definition save_tasks (tasks : list Item) : M unit :=
  match save_fail with Some e => raise e | None => ret tt end.

(** The [try:] block of [_generate_tasks_async]. *)
Definition generate_tasks_body (trip : option Trip) : M unit :=
    (let* _ := update job_id "processing" 10 (Some "Fetching trip details") None None now in
     let* t := match trip with
               | None => raise ("Trip " ++ tid ++ " not found")
               | Some t => ret t
               end in
     let* _ := update job_id "processing" 30 (Some "Generating tasks with AI") None None now in
     let tasks := TaskAgent.generate_tasks visa_tasks vaccine_tasks answer (destinations t) in
     let* _ := update job_id "processing" 70 (Some "Saving tasks to database") None None now in
     let* _ := save_tasks tasks in
     update job_id "completed" 100 (Some "Tasks generated successfully")
       (Some [("tasks_count", Z.of_nat (length tasks))]) None now).

(** [_generate_tasks_async] with its [except] handler. *)
Definition generate_tasks_async (trip : option Trip) : M unit :=
  try_except (generate_tasks_body trip)
    (fun e => update job_id "failed" 0 (Some "Failed to generate tasks") None (Some e) now).

End GenerateTasks.
End TaskPipeline.

(* ================================================================== *)
(** ** Python's [int(float(s))] on a decimal literal *)

Module PyFloat.

Local Open Scope char_scope.
Local Close Scope char_scope.



(** Rounding of a non-negative rational to the nearest IEEE double
    (ties to even, 53-bit significand) followed by [int()] (truncation):
    [None] when the rounded value is at least [2^1024], i.e. [float()]
    returns [inf] and [int()] raises [OverflowError]. *)
Definition int_of_double (v : Q) : option Z :=
  let n := Qnum v in
  let d := Zpos (Qden v) in
  if (n <=? 0)%Z then Some 0%Z else
  let e0 := (Z.log2 n - Z.log2 d - 52)%Z in
  let scaled e := if (0 <=? e)%Z then (n, (d * 2 ^ e)%Z) else ((n * 2 ^ (- e))%Z, d) in
  let e := if (fst (scaled e0) / snd (scaled e0) <? 2 ^ 52)%Z then (e0 - 1)%Z else e0 in
  let '(num, den) := scaled e in
  let q := (num / den)%Z in
  let r := (num mod den)%Z in
  let m := if ((den <? 2 * r) || ((2 * r =? den) && Z.odd q))%Z then (q + 1)%Z else q in
  if (2 ^ 1024 <=? Z.shiftl m e)%Z then None
  else Some (if (0 <=? e)%Z then Z.shiftl m e else Z.shiftr m (- e)).

End PyFloat.

(* ================================================================== *)
(** ** Python's [float]: IEEE-754 binary64 arithmetic *)

Module PyDouble.

(** A float: a finite double, held as the exact rational it denotes, or an
    infinity ([DInf true] is [-inf]).  NaN does not arise in the code
    modelled here. *)
Inductive Dbl := DFin (q : Q) | DInf (neg : bool).

(** Rounding of a rational to binary64, to nearest with ties to even: a
    53-bit significand, subnormals down to [2^-1074], and an infinity once
    the rounded value reaches [2^1024].  This is how Python rounds
    [int / int], [float(int)] and the product of two floats. *)
Definition round_Q (v : Q) : Dbl :=
  let n := Qnum v in
  let d := Zpos (Qden v) in
  if (n =? 0)%Z then DFin 0 else
  let neg := (n <? 0)%Z in
  let a := Z.abs n in
  let e0 := (Z.log2 a - Z.log2 d - 52)%Z in
  let scaled e := if (0 <=? e)%Z then (a, (d * 2 ^ e)%Z) else ((a * 2 ^ (- e))%Z, d) in
  let e1 := if (fst (scaled e0) / snd (scaled e0) <? 2 ^ 52)%Z then (e0 - 1)%Z else e0 in
  let e := Z.max e1 (-1074) in
  let '(num, den) := scaled e in
  let q := (num / den)%Z in
  let r := (num mod den)%Z in
  let m := if ((den <? 2 * r) || ((2 * r =? den) && Z.odd q))%Z then (q + 1)%Z else q in
  let sm := if neg then (- m)%Z else m in
  if (0 <=? e)%Z then
    if (2 ^ 1024 <=? m * 2 ^ e)%Z then DInf neg else DFin (inject_Z (sm * 2 ^ e))
  else DFin (sm # Z.to_pos (2 ^ (- e))).

(** The literals [0.5], [0.6], [1.2] and [1.8] as doubles. *)
Definition lit_0_5 : Q := 1 # 2.
Definition lit_0_6 : Q := 5404319552844595 # 9007199254740992.
Definition lit_1_2 : Q := 5404319552844595 # 4503599627370496.
Definition lit_1_8 : Q := 8106479329266893 # 4503599627370496.

(** [x * y] for finite floats [x] and [y]. *)
Definition fmul (x y : Q) : Dbl := round_Q (x * y).

(** [a / b] for ints, [b > 0]: correctly rounded, and an [OverflowError]
    when the quotient is too large for a float. *)
Definition int_truediv (a b : Z) : PyRes Q :=
  match round_Q (inject_Z a / inject_Z b) with
  | DFin q => POk q
  | DInf _ => PExc "OverflowError: integer division result too large for a float"
  end.


(** [n <= x] for an int [n] and a float [x]: Python compares them exactly. *)
Definition le_int_float (n : Z) (x : Dbl) : bool :=
  match x with
  | DFin q => Qle_bool (inject_Z n) q
  | DInf neg => negb neg
  end.

End PyDouble.


(** [[f(i, x) for i, x in enumerate(l, i0)]] *)
Fixpoint enumerate_map {A B} (f : nat -> A -> B) (i : nat) (l : list A) : list B :=
  match l with
  | [] => []
  | x :: r => f i x :: enumerate_map f (S i) r
  end.

(* ================================================================== *)
(** ** Accommodation agent (services/agents/sub_agents/accommodation_agent.py) *)

Module AccommodationAgent.

(** A dict built by [_extract_accommodation_from_text] or
    [_create_fallback_recommendation]: [None] is an absent key. *)
Record Parsed := mkParsed {
  p_name : option string;
  p_type : option string;
  p_price : option Z;
  p_location : option string;
  p_description : option string;
  p_why : option string;
  p_range : option string
}.


Definition overflow_error : string := "OverflowError: cannot convert float infinity to integer".

(** [int(x)] for a float [x]: truncation toward zero; [int(inf)] raises. *)
Definition py_int (x : PyDouble.Dbl) : PyRes Z :=
  match x with
  | PyDouble.DFin q => POk (Z.quot (Qnum q) (Zpos (Qden q)))
  | PyDouble.DInf _ => PExc overflow_error
  end.

(** [_determine_range_category(price, budget_per_night, requested_range)]
    for an int [price] and a finite float [budget_per_night]. *)
Definition determine_range_category (price : Z) (budget_per_night : Q) (requested_range : string)
    : string :=
  if negb (String.eqb requested_range "all") then requested_range
  else if PyDouble.le_int_float price (PyDouble.fmul budget_per_night PyDouble.lit_0_6)
  then "budget"
  else if PyDouble.le_int_float price (PyDouble.fmul budget_per_night PyDouble.lit_1_2)
  then "mid-range"
  else "luxury".

(** [_create_fallback_recommendation(destination, index, budget_per_night,
    currency, range_type)]; [int(budget_per_night * 1.8)] raises when the
    product overflows to [inf]. *)
Definition create_fallback_recommendation (destination : string) (index : nat)
    (budget_per_night : Q) (range_type : string) : PyRes Parsed :=
  let category :=
    if String.eqb range_type "all" then
      nth ((index - 1) mod 3) ["budget"; "mid-range"; "luxury"] "budget"
    else range_type in
  let '(price, type_name, description, name) :=
    if String.eqb category "budget" then
      (match py_int (PyDouble.fmul budget_per_night PyDouble.lit_0_5) with
       | PExc e => PExc e | POk p => POk (Z.max p 20) end, "hostel",
       "A clean and comfortable budget accommodation option with basic amenities.",
       destination ++ " Budget Hostel")
    else if String.eqb category "mid-range" then
      (match py_int (PyDouble.DFin budget_per_night) with
       | PExc e => PExc e | POk p => POk (Z.max p 50) end, "hotel",
       "A well-located hotel with good amenities and comfortable rooms.",
       destination ++ " Central Hotel")
    else
      (match py_int (PyDouble.fmul budget_per_night PyDouble.lit_1_8) with
       | PExc e => PExc e | POk p => POk (Z.max p 100) end, "hotel",
       "An upscale property offering premium amenities and exceptional service.",
       destination ++ " Luxury Resort") in
  match price with
  | PExc e => PExc e
  | POk price =>
      POk (mkParsed (Some name) (Some type_name) (Some price) (Some destination)
             (Some description)
             (Some ("This " ++ category ++ " option fits within the trip budget and offers good value."))
             (Some category))
  end.






Section Extraction.
(** The regular-expression heuristics, left abstract: the properties
    below hold whatever they return.  [split_sections] is
    [re.split(r'\n\s*\n|\n(?=\d+\.|#{1,3}\s)', text)]; [find_name],
    [find_location], [find_description], [find_why] are the name,
    location, description and why-it-fits searches; [price_captures
    currency text] is the [group(1)] of each price pattern that matches,
    in pattern order. *)
Variable split_sections : string -> list string.
Variables find_name find_location find_description find_why : string -> option string.
Variable price_captures : string -> string -> list string.






End Extraction.

End AccommodationAgent.

(* ================================================================== *)
(** ** Vaccine agent (services/agents/sub_agents/vaccine_agent.py)

    Texts are ASCII; [\w] is [[A-Za-z0-9_]], and a length is a number of
    characters. *)

Module VaccineAgent.

Definition vaccine_keywords : list string :=
  ["Yellow Fever"; "Typhoid"; "Hepatitis A"; "Hepatitis B"; "Rabies";
   "Japanese Encephalitis"; "Malaria"; "Tetanus"; "Diphtheria"; "Measles";
   "Mumps"; "Rubella"; "Polio"; "COVID-19"; "Cholera"; "Meningococcal";
   "Tuberculosis"; "Influenza"].

(** The words of [_is_vaccine_required]. *)
Definition mandatory_words : list string :=
  ["required"; "mandatory"; "must"; "compulsory"; "obligatory"].

Local Open Scope char_scope.

Definition is_word_char (c : ascii) : bool :=
  let n := nat_of_ascii c in
  ((48 <=? n) && (n <=? 57) || (65 <=? n) && (n <=? 90) || (97 <=? n) && (n <=? 122) ||
   (n =? 95))%nat.

Definition word_at (c : option ascii) : bool :=
  match c with Some c => is_word_char c | None => false end.

(** [\b] between the characters [prev] and [next] ([None]: the text's edge). *)
Definition boundary (prev next : option ascii) : bool := xorb (word_at prev) (word_at next).

(** [.{0,200}] (greedy; [.] stops at a newline). *)
Fixpoint take_line (n : nat) (l : list ascii) : list ascii :=
  match n, l with
  | S n', c :: r => if Ascii.eqb c "010" then [] else c :: take_line n' r
  | _, _ => []
  end.
Local Close Scope char_scope.

Fixpoint is_prefix (p l : list ascii) : bool :=
  match p, l with
  | [], _ => true
  | c :: p', d :: l' => Ascii.eqb c d && is_prefix p' l'
  | _ :: _, [] => false
  end.

Definition char_before (text : list ascii) (k : nat) : option ascii :=
  match k with O => None | S k' => nth_error text k' end.

Definition last_char (w : list ascii) (prev : option ascii) : option ascii :=
  match rev w with c :: _ => Some c | [] => prev end.

(** [\b{name}\b] matched at position [k] of [text]: the matched text. *)
Definition word_at_pos (text name : list ascii) (k : nat) : option (list ascii) :=
  let prev := char_before text k in
  let rest := skipn k text in
  if boundary prev (head rest) && is_prefix name rest &&
     boundary (last_char name prev) (head (skipn (length name) rest))
  then Some name else None.

(** [\b{name}\b.{0,200}] matched at position [k] of [text]: the matched
    text, the name and the (at most 200 characters of its line) after it. *)
Definition window_at (text name : list ascii) (k : nat) : option (list ascii) :=
  match word_at_pos text name k with
  | Some w => Some (w ++ take_line 200 (skipn (k + length name) text))%list
  | None => None
  end.

(** The regular-expression scan from position [k]: the leftmost match at
    a position [>= k], then the scan resumes at the end of that match.
    The result lists [(position, matched text)]. *)
Fixpoint scan (matcher : nat -> option (list ascii)) (fuel k len : nat)
    : list (nat * list ascii) :=
  match fuel with
  | O => []
  | S f =>
      if (len <? k)%nat then []
      else
        match matcher k with
        | Some w => (k, w) :: scan matcher f (k + length w) len
        | None => scan matcher f (S k) len
        end
  end.

(** [re.compile(rf'\b{re.escape(v)}\b.{{0,200}}', re.IGNORECASE).findall(t)]
    for the lower-cased [v] and [t] (every keyword is non-empty, so a
    match advances the scan). *)
Definition findall_windows (name text : string) : list string :=
  let t := list_ascii_of_string text in
  let n := list_ascii_of_string name in
  map (fun '(_, w) => string_of_list_ascii w)
      (scan (window_at t n) (S (length t)) 0 (length t)).

(** [[m.start() for m in re.finditer(rf'\b{re.escape(v)}\b', t)]] *)
Definition finditer_starts (name text : string) : list nat :=
  let t := list_ascii_of_string text in
  let n := list_ascii_of_string name in
  map fst (scan (word_at_pos t n) (S (length t)) 0 (length t)).

(** [_is_vaccine_required(text, vaccine)] *)
Definition is_vaccine_required (text vaccine : string) : bool :=
  existsb (fun m => existsb (fun word => PyStr.contains word m) mandatory_words)
          (findall_windows (PyStr.lower vaccine) (PyStr.lower text)).

(** [s.split(c)] for a one-character separator. *)
Fixpoint split_char (c : ascii) (s : string) : list string :=
  match s with
  | EmptyString => [EmptyString]
  | String d r =>
      if Ascii.eqb c d then EmptyString :: split_char c r
      else match split_char c r with
           | w :: ws => String d w :: ws
           | [] => [String d EmptyString]
           end
  end.

(** [s[a:b]] for [0 <= a <= b]. *)
Definition slice (s : string) (a b : nat) : string :=
  string_of_list_ascii (firstn (b - a) (skipn a (list_ascii_of_string s))).

(** [_extract_vaccine_context(text, vaccine)] *)
Definition extract_vaccine_context (text vaccine : string) : string :=
  let vaccine_lower := PyStr.lower vaccine in
  let text_lines := split_char "010"%char text in
  let context_lines :=
    concat (enumerate_map (fun i line =>
              if PyStr.contains vaccine_lower (PyStr.lower line)
              then firstn 3 (skipn i text_lines) else []) 0 text_lines) in
  let context := String.concat " " context_lines in
  let context := if (300 <? String.length context)%nat
                 then slice context 0 300 ++ "..." else context in
  if String.eqb context EmptyString
  then "Vaccine mentioned for travel to destination(s)." else context.

(** [_find_applicable_destinations(text, vaccine, all_destinations)] *)
Definition find_applicable_destinations (text vaccine : string) (all_destinations : list string)
    : list string :=
  let vaccine_lower := PyStr.lower vaccine in
  let text_lower := PyStr.lower text in
  let n := String.length text_lower in
  let near destination :=
    let dest_name := PyStr.strip (List.last (split_char "," destination) destination) in
    let dest_lower := PyStr.lower dest_name in
    existsb (fun pos =>
               PyStr.contains dest_lower (slice text_lower (pos - 500) (Nat.min n (pos + 500))))
            (finditer_starts vaccine_lower text_lower) in
  let applicable :=
    fold_left (fun acc d =>
                 if near d && negb (existsb (String.eqb d) acc) then (acc ++ [d])%list else acc)
              all_destinations [] in
  match applicable with [] => all_destinations | _ :: _ => applicable end.

(** [dest_str] of [_create_vaccine_task] *)
Definition dest_str (destinations : list string) : string :=
  match destinations with
  | [] => "your destinations"
  | [d] => d
  | [d1; d2] => d1 ++ " and " ++ d2
  | _ => Pipeline.join ", " (removelast destinations) ++ ", and " ++ List.last destinations EmptyString
  end.

Definition vaccine_title (vaccine : string) : string :=
  "Get required " ++ vaccine ++ " vaccine".

(** [_create_vaccine_task(vaccine, info)] *)
Definition create_vaccine_task (vaccine context : string) (destinations : list string) : Item :=
  let description :=
    vaccine ++ " vaccine is required for travel to " ++ dest_str destinations ++ ". " ++
    "Consult your doctor or a travel clinic. " ++
    (if PyStr.contains "yellow fever" (PyStr.lower vaccine) ||
        PyStr.contains "japanese encephalitis" (PyStr.lower vaccine)
     then "Recommended: Get vaccinated at least 4-6 weeks before travel. "
     else "Recommended: Get vaccinated at least 2-4 weeks before travel. ") in
  let description :=
    if negb (String.eqb context EmptyString) && (String.length context <? 200)%nat
    then description ++ nl ++ nl ++ "Note: " ++ context else description in
  [("title", JStr (vaccine_title vaccine)); ("description", JStr description);
   ("category", JStr "health"); ("priority", JStr "high"); ("completed", JBool false)].

(** The entry of [found_vaccines] for a mentioned vaccine. *)
Record Info := mkInfo { required : bool; context : string; applicable : list string }.

(** [_create_tasks_from_research(research_text, destinations)] *)
Definition create_tasks_from_research (research_text : string) (destinations : list string)
    : list Item :=
  let research_lower := PyStr.lower research_text in
  let found_vaccines :=
    flat_map (fun vaccine =>
                if PyStr.contains (PyStr.lower vaccine) research_lower then
                  [(vaccine, mkInfo (is_vaccine_required research_text vaccine)
                                    (extract_vaccine_context research_text vaccine)
                                    (find_applicable_destinations research_text vaccine
                                       destinations))]
                else []) vaccine_keywords in
  flat_map (fun '(vaccine, info) =>
              if required info then [create_vaccine_task vaccine (context info) (applicable info)]
              else []) found_vaccines.

End VaccineAgent.

(* ================================================================== *)
(** ** The job-status endpoints
    (routers/itinerary.py, routers/tasks.py) *)

Module JobRoutes.

(** The answer of an endpoint: a response body, or an [HTTPException]. *)
Inductive Http (A : Type) :=
  | HOk (a : A)
  | HErr (status_code : Z) (detail : string).
Arguments HOk {A} a.
Arguments HErr {A} status_code detail.

(** [JobStatusResponse] built from the record: the field [progress] is declared
    with [ge=0, le=100]; the other fields hold the types the registry
    stores.  The model has no [job_type] field, so the response leaves it
    out; the record is returned whole here and the statements below read
    the fields the response keeps. *)
Definition job_status_response (j : Job) : option Job :=
  if ((0 <=? progress j) && (progress j <=? 100))%Z then Some j else None.

(** [GET /itinerary/status/{job_id}]: the [ValidationError] is not
    caught, FastAPI answers 500. *)
Definition itinerary_status (jobs : Jobs) (jid : string) : Http Job :=
  match JobService.get_job_status jobs jid with
  | None => HErr 404 ("Job " ++ jid ++ " not found")
  | Some j =>
      match job_status_response j with
      | Some r => HOk r
      | None => HErr 500 "Internal Server Error"
      end
  end.

(** [GET /tasks/status/{job_id}]: [validation_error] is [str(e)] of the
    [ValidationError], caught and turned into a 500. *)
Definition task_status (validation_error : string) (jobs : Jobs) (jid : string) : Http Job :=
  match JobService.get_job_status jobs jid with
  | None => HErr 404 "Job not found"
  | Some j =>
      match job_status_response j with
      | Some r => HOk r
      | None => HErr 500 ("Failed to get job status: " ++ validation_error)
      end
  end.

End JobRoutes.

(* ================================================================== *)
(** ** [generate_itinerary] and [_get_fallback_itinerary]
    (services/agents/sub_agents/itinerary_agent.py) *)

Module ItineraryAgentExt.

(** The morning item of day [day] (from 0) of [_get_fallback_itinerary];
    [n] is [len(items)] when it is appended. *)
Definition morning_item (day : nat) (current_date destination : string) (n : nat) : Item :=
  [("day_number", JNum (str_of_nat (S day)));
   ("date", JStr current_date);
   ("start_time", JStr "09:00:00");
   ("end_time", JStr "12:00:00");
   ("title", JStr ("Explore " ++ destination));
   ("description", JStr ("Morning exploration of " ++ destination ++ " attractions"));
   ("location", JStr destination);
   ("type", JStr "activity");
   ("cost", JNum "0");
   ("order_index", JNum (str_of_nat n))].

(** The afternoon item of day [day]. *)
Definition afternoon_item (day : nat) (current_date destination : string) (n : nat) : Item :=
  [("day_number", JNum (str_of_nat (S day)));
   ("date", JStr current_date);
   ("start_time", JStr "14:00:00");
   ("end_time", JStr "17:00:00");
   ("title", JStr ("Visit local sites in " ++ destination));
   ("description", JStr ("Afternoon activities in " ++ destination));
   ("location", JStr destination);
   ("type", JStr "activity");
   ("cost", JNum "0");
   ("order_index", JNum (str_of_nat n))].

(** The [for day in range(num_days)] loop, [k] iterations left:
    [destinations[day % len(destinations)]] raises [ZeroDivisionError]
    on an empty list; [isoformat()[:10]] is the date (four-digit years). *)
Fixpoint fallback_loop (start : Date) (destinations : list string) (k day : nat)
    (items : list Item) : PyRes (list Item) :=
  match k with
  | O => POk items
  | S k' =>
      let current_date := fmt_date (add_days start (Z.of_nat day)) in
      match destinations with
      | [] => PExc "integer modulo by zero"
      | _ :: _ =>
          let destination := nth (day mod length destinations) destinations EmptyString in
          let items1 := (items ++ [morning_item day current_date destination (length items)])%list in
          let items2 := (items1 ++ [afternoon_item day current_date destination (length items1)])%list in
          fallback_loop start destinations k' (S day) items2
      end
  end.

(** [_get_fallback_itinerary(trip_data, num_days)] for a trip whose
    [start_date] reads as [start]; [range(num_days)] is empty for
    [num_days <= 0]. *)
Definition get_fallback_itinerary (start : Date) (destinations : list string) (num_days : Z)
    : PyRes (list Item) :=
  fallback_loop start destinations (Z.to_nat num_days) 0 [].

(** [_calculate_days(start_date, end_date)]: [None] is a missing or empty
    field or a string [datetime.fromisoformat] refuses; both give 7. *)
Definition calculate_days (start_date end_date : option Date) : Z :=
  match start_date, end_date with
  | Some s, Some e => (days_between s e + 1)%Z
  | _, _ => 7%Z
  end.

(** [generate_itinerary(trip_data)]: [answer] is the model's reply to the
    generation prompt; an exception of the call or of the parse falls
    back to [_get_fallback_itinerary], whose own exception propagates. *)
Definition generate_itinerary (trip : Trip) (answer : LLMOut) : PyRes (list Item) :=
  let num_days := calculate_days (Some (trip_start trip)) (Some (trip_end trip)) in
  let fallback := get_fallback_itinerary (trip_start trip) (destinations trip) num_days in
  match answer with
  | Raised _ => fallback
  | Returned content =>
      match ItineraryAgent.parse_itinerary_response content (JStr (fmt_date (trip_start trip))) with
      | POk items => POk items
      | PExc _ => fallback
      end
  end.

End ItineraryAgentExt.

(* ================================================================== *)
(** ** [recommend_accommodations] (accommodation_agent.py) *)

Module AccommodationAgentExt.
Import AccommodationAgent.


Section Recommend.
Variable split_sections : string -> list string.
Variables find_name find_location find_description find_why : string -> option string.
Variable price_captures : string -> string -> list string.


End Recommend.
End AccommodationAgentExt.

(* ================================================================== *)
(** ** [generate_vaccine_tasks] (vaccine_agent.py) *)

Module VaccineAgentExt.

(** [generate_vaccine_tasks(trip_data, user_citizenship)]: [client] tells
    whether [PERPLEXITY_API_KEY] was set; [research] is the outcome of
    the Perplexity call of [_research_vaccines] ([None] on an exception). *)
Definition generate_vaccine_tasks (client : bool) (destinations : list string) (research : LLMOut)
    : list Item :=
  if negb client then [] else
  match destinations with
  | [] => []
  | _ :: _ =>
      match research with
      | Raised _ => []
      | Returned vaccine_info =>
          if String.eqb vaccine_info EmptyString then []
          else VaccineAgent.create_tasks_from_research vaccine_info destinations
      end
  end.

End VaccineAgentExt.

(* ================================================================== *)
(** ** Visa agent (services/agents/sub_agents/visa_agent.py) *)

Module VisaAgent.

(** [_create_fallback_visa_task(destination)] *)
Definition create_fallback_visa_task (destination : string) : Item :=
  [("title", JStr ("Research visa requirements for " ++ destination));
   ("description", JStr ("Check if visa is required for " ++ destination ++
                         " and apply if necessary. " ++
                         "Visit official embassy website or government travel advisory. " ++
                         "Recommended: 6 weeks before trip."));
   ("category", JStr "visa");
   ("priority", JStr "high");
   ("completed", JBool false)].

(** [_get_fallback_visa_tasks(destinations)] *)
Definition get_fallback_visa_tasks (destinations : list string) : list Item :=
  map create_fallback_visa_task destinations.

Section Generate.
(** The network-backed helpers, left abstract.  [get_country_code] is
    [_get_country_code] ([None] for a falsy result; its cache makes it a
    function of the location).  [check_visa_requirements p d] is the
    value of [_check_visa_requirements(p, d)] as the loop uses it: [None]
    for a falsy value, [Some info] for a dict the logging lines read, an
    exception when they raise on it.  [create_tasks_from_visa_info] is
    [_create_tasks_from_visa_info] for the trip. *)
Variable VisaInfo : Type.
Variable get_country_code : string -> option string.
Variable check_visa_requirements : string -> string -> PyRes (option VisaInfo).
Variable create_tasks_from_visa_info : string -> string -> VisaInfo -> PyRes (list Item).

(** The [for i, destination in enumerate(destinations, 1)] loop, with
    [seen_countries] as a list.  The result holds the destination codes
    passed to [_check_visa_requirements], in order, and the tasks. *)
Fixpoint visa_loop (passport_code : string) (seen_countries : list string)
    (dests : list string) : PyRes (list string * list Item) :=
  match dests with
  | [] => POk ([], [])
  | destination :: rest =>
      match get_country_code destination with
      | None => visa_loop passport_code seen_countries rest
      | Some destination_code =>
          if existsb (String.eqb destination_code) seen_countries then
            visa_loop passport_code seen_countries rest
          else if String.eqb destination_code passport_code then
            visa_loop passport_code (destination_code :: seen_countries) rest
          else
            let destination_tasks :=
              match check_visa_requirements passport_code destination_code with
              | PExc e => PExc e
              | POk None => POk [create_fallback_visa_task destination]
              | POk (Some visa_info) =>
                  create_tasks_from_visa_info destination destination_code visa_info
              end in
            match destination_tasks with
            | PExc e => PExc e
            | POk ts =>
                match visa_loop passport_code (destination_code :: seen_countries) rest with
                | PExc e => PExc e
                | POk (checks, tasks) => POk (destination_code :: checks, (ts ++ tasks)%list)
                end
            end
      end
  end.

(** [generate_visa_tasks(trip_data, user_citizenship)]: the checks made
    and the tasks. *)
Definition generate_visa_tasks (user_citizenship : string) (destinations : list string)
    : PyRes (list string * list Item) :=
  match get_country_code user_citizenship with
  | None => POk ([], get_fallback_visa_tasks destinations)
  | Some passport_code => visa_loop passport_code [] destinations
  end.

End Generate.
End VisaAgent.

(* ================================================================== *)
(** * Properties *)

(** The progress written before and after day [d] of an [N]-day run. *)
Definition progress_before (N : Z) (d : nat) : Z := (10 + (Z.of_nat d - 1) * (80 / N))%Z.
Definition progress_after (N : Z) (d : nat) : Z := (10 + Z.of_nat d * (80 / N))%Z.

(** The two [update_job_status] calls of the days [day .. day + k - 1]. *)
Definition day_updates (jid : string) (N : Z) (day k : nat) : list (string * string * Z) :=
  flat_map (fun d => [(jid, "processing", progress_before N d);
                      (jid, "processing", progress_after N d)]) (seq day k).

(** The progress values of a run that does not fail. *)
Definition progress_values (N : Z) : list Z :=
  (5%Z :: flat_map (fun d => [progress_before N d; progress_after N d]) (seq 1 (Z.to_nat N)) ++
   [100%Z])%list.

(** The fields of a job record the updates never touch. *)
Definition same_ids (j j' : Job) : Prop :=
  job_id j' = job_id j /\ trip_id j' = trip_id j /\ job_type j' = job_type j /\
  created_at j' = created_at j.

(** A registry with one fresh job, and a worker state over it. *)
Definition jobs0 : Jobs := JobService.create_job ∅ "job-1" "trip-1" "itinerary_generation" "t0".
Definition st0 : Pipeline.St := Pipeline.mkSt jobs0 [] [] [].

Definition trip_of (dests : list string) (days : Z) : Trip :=
  mkTrip (mkDate 2025 3 1) (mkDate 2025 3 days) dests.

(** [m] ends with the job [jid] (when present) in status [st]. *)
Definition ends_in (jid st : string) (m : Pipeline.M unit) : Prop :=
  forall s s', m s = (POk tt, s') ->
  forall j, Pipeline.jobs s' !! jid = Some j -> status j = st.

(** The record of [jobs0]. *)
Definition job0 : Job :=
  mkJob "job-1" "trip-1" "itinerary_generation" "pending" 0 (Some "Job created") None None "t0" "t0".

(** [await job_service.update_job_status(job_id, status)]: a call that
    leaves every optional argument at its default. *)
Definition update_job_status_defaults (jobs : Jobs) (jid st now : string) : Jobs :=
  JobService.update_job_status jobs jid st 0 None None None now.

(** The progress values of a list of [update_job_status] calls. *)
Definition trace_progress (tr : list (string * string * Z)) : list Z :=
  map (fun '(_, _, p) => p) tr.

(** The categories of the fallback tasks of [_get_fallback_tasks]. *)
Definition fallback_categories : list string :=
  ["general"; "accommodation"; "transportation"; "finance"; "documentation"; "packing"].

(** A string made of [str.isspace] characters only. *)
Fixpoint all_space (s : string) : bool :=
  match s with EmptyString => true | String c r => PyStr.is_space c && all_space r end.

Definition is_ascii_letter (c : ascii) : bool :=
  let n := nat_of_ascii c in ((65 <=? n) && (n <=? 90) || (97 <=? n) && (n <=? 122))%nat.

Definition backtick : string := "`".





(** A window of [_is_vaccine_required] holding a mandatory-language word. *)
Definition has_mandatory (w : list ascii) : bool :=
  existsb (fun word => PyStr.contains word (string_of_list_ascii w)) VaccineAgent.mandatory_words.

(** Sample inputs. *)
Definition quote : string := String "034"%char EmptyString.

Definition null_category_answer : string :=
  "Here: [{" ++ quote ++ "title" ++ quote ++ ": " ++ quote ++ "Pack adapters" ++ quote ++ ", " ++
  quote ++ "category" ++ quote ++ ": null}] done".

Definition visa_task : Item := [("title", JStr "Apply for visa"); ("category", JStr "visa")].

Definition one_item_json : string :=
  "[{" ++ quote ++ "title" ++ quote ++ ": " ++ quote ++ "Senso-ji" ++ quote ++ "}]".



Definition vaccine_text : string :=
  "A yellow fever vaccination is required for entry. Rabies vaccine is recommended.".

(** Every job record of the registry has a progress in [0, 100]. *)
Definition progress_ok (jobs : Jobs) : Prop :=
  map_Forall (fun _ j => (0 <= progress j <= 100)%Z) jobs.

(** The two items [_get_fallback_itinerary] gives day [d] (from 0). *)
Definition fallback_day (start : Date) (dests : list string) (d : nat) : list Item :=
  let date := fmt_date (add_days start (Z.of_nat d)) in
  let dest := nth (d mod length dests) dests EmptyString in
  [ItineraryAgentExt.morning_item d date dest (2 * d);
   ItineraryAgentExt.afternoon_item d date dest (S (2 * d))].

(** The keys of an item of [_parse_itinerary_response], in order. *)
Definition itinerary_keys : list string :=
  ["day_number"; "date"; "start_time"; "end_time"; "title"; "description"; "location";
   "type"; "cost"; "order_index"].


(** The keys of a task of [_parse_task_response], in order. *)
Definition task_keys : list string := ["title"; "description"; "category"; "priority"; "completed"].

(** A task dict with the five task keys and [completed] false. *)
Definition task_shape (t : Item) : Prop :=
  map fst t = task_keys /\ jget t "completed" JNull = JBool false.


(** The rank of a range category: budget 0, mid-range 1, luxury 2. *)
Definition range_rank (c : string) : nat :=
  if String.eqb c "budget" then 0 else if String.eqb c "mid-range" then 1 else 2.


(** A task of the health specialist: category health, priority high,
    not completed. *)
Definition health_task (t : Item) : Prop :=
  jget t "category" JNull = JStr "health" /\ jget t "priority" JNull = JStr "high" /\
  jget t "completed" JNull = JBool false.

(** Every item carries the day number [d] and the date [date]. *)
Definition day_labelled (d : nat) (date : string) (items : list Item) : Prop :=
  Forall (fun it => jget it "day_number" JNull = JNum (str_of_nat d) /\
                    jget it "date" JNull = JStr date) items.

(** A worker state whose store holds one row of trip-1 and one of trip-2. *)
Definition st_rows : Pipeline.St :=
  Pipeline.mkSt jobs0 [("trip-1", Pipeline.to_db_row "trip-1" []);
                       ("trip-2", Pipeline.to_db_row "trip-2" [])] [] [].

(** A country-code lookup that knows Japan and the USA. *)
Definition gcc_ex (s : string) : option string :=
  if String.eqb s "Japan" then Some "JP" else if String.eqb s "USA" then Some "US" else None.

Module RegistryFacts.
Import JobService.

Lemma update_lookup_same (jobs : Jobs) jid st prog msg res err now (j : Job) :
  jobs !! jid = Some j ->
  update_job_status jobs jid st prog msg res err now !! jid =
    Some (mkJob (job_id j) (trip_id j) (job_type j) st prog msg res err (created_at j) now).
Proof. intros H. unfold update_job_status. rewrite H. apply lookup_insert_eq. Qed.

Lemma update_lookup_other (jobs : Jobs) jid jid' st prog msg res err now :
  jid' <> jid ->
  update_job_status jobs jid st prog msg res err now !! jid' = jobs !! jid'.
Proof.
  intros Hne. unfold update_job_status. destruct (jobs !! jid); [|reflexivity].
  apply lookup_insert_ne. congruence.
Qed.

Lemma update_lookup_none (jobs : Jobs) jid st prog msg res err now :
  jobs !! jid = None -> update_job_status jobs jid st prog msg res err now = jobs.
Proof. intros H. unfold update_job_status. rewrite H. reflexivity. Qed.

(** A record found after an update was found before it, with the same
    fixed fields; the update leaves it with the written fields. *)
Lemma update_lookup_inv (jobs : Jobs) jid st prog msg res err now (j' : Job) :
  update_job_status jobs jid st prog msg res err now !! jid = Some j' ->
  exists j, jobs !! jid = Some j /\ same_ids j j' /\
            j' = mkJob (job_id j) (trip_id j) (job_type j) st prog msg res err (created_at j) now.
Proof.
  intros H. destruct (jobs !! jid) as [j|] eqn:E.
  - rewrite (update_lookup_same _ _ _ _ _ _ _ _ j E) in H. inversion H; subst.
    exists j. repeat split; reflexivity.
  - rewrite update_lookup_none in H by exact E. congruence.
Qed.

End RegistryFacts.

Module PipelineFacts.
Import Pipeline.

Lemma bind_ends_in {A} jid st (m : M A) (k : A -> M unit) :
  (forall a, ends_in jid st (k a)) -> ends_in jid st (bind m k).
Proof.
  intros Hk s s' H. unfold bind in H.
  destruct (m s) as [[a|e] s1]; [exact (Hk a s1 s' H) | discriminate].
Qed.

Lemma update_ends_in jid st prog msg res err now :
  ends_in jid st (update jid st prog msg res err now).
Proof.
  intros s s' H j Hj. inversion H; subst; clear H. simpl in Hj.
  apply RegistryFacts.update_lookup_inv in Hj as (j0 & _ & _ & ->). reflexivity.
Qed.

(** The outcome of a [try: body except Exception as e: update(failed, 0,
    msg, error=str(e))] block whose body ends with a [completed] update:
    a [failed] record has progress 0, the handler's message, and the
    error text. *)
Lemma failed_record jid now msg (body : M unit) (s s' : St) r (j : Job) :
  ends_in jid "completed" body ->
  try_except body (fun e => update jid "failed" 0 (Some msg) None (Some e) now) s = (r, s') ->
  jobs s' !! jid = Some j -> status j = "failed" ->
  progress j = 0%Z /\ message j = Some msg /\ result j = None /\
  exists e, error j = Some e /\ exists s1, body s = (PExc e, s1).
Proof.
  intros Hb H Hj Hst. unfold try_except in H.
  destruct (body s) as [[[]|e] s1] eqn:E.
  - inversion H; subst. rewrite (Hb s s' E j Hj) in Hst. discriminate.
  - inversion H; subst; clear H. simpl in Hj.
    apply RegistryFacts.update_lookup_inv in Hj as (j0 & _ & _ & ->).
    simpl. repeat split. exists e. split; [reflexivity|]. exists s1. reflexivity.
Qed.

Ltac ends_in_tac :=
  repeat (apply bind_ends_in; intro; cbv zeta); apply update_ends_in.

Lemma generate_body_ends_in jid tid now answer save_fail trip :
  ends_in jid "completed" (generate_itinerary_body jid tid now answer save_fail trip).
Proof. unfold generate_itinerary_body. ends_in_tac. Qed.

End PipelineFacts.

Module TraceFacts.
Import Pipeline.

Lemma titles_state l s : exists r, titles l s = (r, s).
Proof.
  induction l as [|it l IH]; simpl.
  - eexists; reflexivity.
  - destruct (jget it "title" (JStr "")); try (eexists; reflexivity).
    unfold bind. destruct IH as [[ts|e] E]; rewrite E; eexists; reflexivity.
Qed.

Lemma day_loop_trace jid tid now answer save_fail t N k : forall day summary s r s',
  day_loop jid tid now answer save_fail t N k day summary s = (r, s') ->
  (r = POk tt /\ trace s' = (trace s ++ day_updates jid N day k)%list) \/
  (exists e pre rest, r = PExc e /\ day_updates jid N day k = (pre ++ rest)%list /\
                      trace s' = (trace s ++ pre)%list).
Proof.
  induction k as [|k IH]; intros day summary s r s' H.
  - simpl in H. inversion H; subst. left. split; [reflexivity|]. simpl. rewrite app_nil_r. reflexivity.
  - simpl in H. unfold bind at 1 in H. simpl in H.
    set (s1 := {| jobs := _; db := _; store_log := _; trace := _ |}) in H.
    assert (Hdu : day_updates jid N day (S k) =
      ([(jid, "processing", progress_before N day); (jid, "processing", progress_after N day)]
       ++ day_updates jid N (S day) k)%list) by reflexivity.
    rewrite Hdu.
    destruct (ItineraryAgent.generate_single_day t day (answer day summary)) as [items|e] eqn:Eg;
      simpl in H.
    + destruct (save_fail day) as [e|] eqn:Es; simpl in H.
      * inversion H; subst. right. exists e, [(jid, "processing", progress_before N day)].
        eexists. split; [reflexivity|]. split; [reflexivity|]. reflexivity.
      * cbn [bind update save_itinerary_items lift ret] in H.
        set (s2 := {| jobs := _; db := _; store_log := _; trace := _ |}) in H.
        assert (Ht2 : trace s2 = (trace s ++ [(jid, "processing", progress_before N day);
                                  (jid, "processing", progress_after N day)])%list)
          by (subst s2 s1; simpl; rewrite <- ?app_assoc; reflexivity).
        destruct items as [|it its].
        -- simpl in H. apply IH in H as [[-> Ht]|(e & pre & rest & -> & Hd & Ht)].
           ++ left. split; [reflexivity|]. rewrite Ht, Ht2, app_assoc. reflexivity.
           ++ right. exists e, ([(jid, "processing", progress_before N day);
                                  (jid, "processing", progress_after N day)] ++ pre)%list, rest.
              split; [reflexivity|]. rewrite Hd. split; [reflexivity|].
              rewrite Ht, Ht2, app_assoc. reflexivity.
        -- unfold bind in H.
           match type of H with context [titles ?l ?st] =>
             destruct (titles_state l st) as [[ts|e] E]; rewrite E in H end.
           ++ simpl in H.
              apply IH in H as [[-> Ht]|(e & pre & rest & -> & Hd & Ht)].
              ** left. split; [reflexivity|]. rewrite Ht, Ht2, app_assoc. reflexivity.
              ** right. exists e, ([(jid, "processing", progress_before N day);
                                     (jid, "processing", progress_after N day)] ++ pre)%list, rest.
                 split; [reflexivity|]. rewrite Hd. split; [reflexivity|].
                 rewrite Ht, Ht2, app_assoc. reflexivity.
           ++ inversion H; subst. right.
              exists e, [(jid, "processing", progress_before N day);
                         (jid, "processing", progress_after N day)].
              eexists. split; [reflexivity|]. split; [reflexivity|]. exact Ht2.
    + inversion H; subst. right. exists e, [(jid, "processing", progress_before N day)].
      eexists. split; [reflexivity|]. split; [reflexivity|]. reflexivity.
Qed.

Lemma generate_trace jid tid now answer save_fail t s r s' :
  generate_itinerary_async jid tid now answer save_fail (Some t) s = (r, s') ->
  let N := (days_between (trip_start t) (trip_end t) + 1)%Z in
  trace s' = (trace s ++ [(jid, "processing", 5%Z)] ++ day_updates jid N 1 (Z.to_nat N) ++
              [(jid, "completed", 100%Z)])%list \/
  exists pre rest, day_updates jid N 1 (Z.to_nat N) = (pre ++ rest)%list /\
    trace s' = (trace s ++ [(jid, "processing", 5%Z)] ++ pre ++ [(jid, "failed", 0%Z)])%list.
Proof.
  intros H N. unfold generate_itinerary_async, generate_itinerary_body, try_except in H.
  unfold bind at 1 in H. simpl in H. unfold bind at 1 in H. simpl in H.
  unfold bind at 1 in H.
  match type of H with context [day_loop ?a ?b ?c ?d ?e ?f ?g ?h ?i ?j ?st] =>
    destruct (day_loop a b c d e f g h i j st) as [r1 s1] eqn:E end.
  apply day_loop_trace in E. simpl in E. fold N in E.
  destruct E as [[-> Ht]|(e & pre & rest & -> & Hd & Ht)].
  - simpl in H. inversion H; subst. simpl. left. rewrite Ht, <- !app_assoc. reflexivity.
  - simpl in H. inversion H; subst. simpl. right. exists pre, rest. split; [exact Hd|].
    rewrite Ht, <- !app_assoc. reflexivity.
Qed.

Lemma progress_mid_sorted (N : Z) (HN : (1 <= N)%Z) : forall k day (x : Z),
  (1 <= day)%nat -> (x <= progress_before N day)%Z -> (Z.of_nat day - 1 + Z.of_nat k <= N)%Z ->
  LocallySorted Z.le
    (x :: flat_map (fun d => [progress_before N d; progress_after N d]) (seq day k) ++ [100%Z])%list.
Proof.
  assert (Hq : (0 <= 80 / N)%Z) by (apply Z.div_pos; lia).
  assert (Hm : (N * (80 / N) <= 80)%Z) by (apply Z.mul_div_le; lia).
  unfold progress_before, progress_after.
  induction k as [|k IH]; intros day x Hd Hx Hk; simpl.
  - constructor; [constructor|]. nia.
  - constructor; [constructor|]; [|lia|lia].
    apply (IH (S day)); [lia| |lia]. rewrite Nat2Z.inj_succ. lia.
Qed.

Lemma progress_values_ok (N : Z) (HN : (1 <= N)%Z) :
  Sorted Z.le (progress_values N) /\ Forall (fun x => 0 <= x <= 100)%Z (progress_values N).
Proof.
  assert (Hq : (0 <= 80 / N)%Z) by (apply Z.div_pos; lia).
  assert (Hm : (N * (80 / N) <= 80)%Z) by (apply Z.mul_div_le; lia).
  split.
  - apply Sorted_LocallySorted_iff. apply progress_mid_sorted; [lia|lia|unfold progress_before; simpl; lia|].
    rewrite Z2Nat.id by lia. lia.
  - unfold progress_values. apply List.Forall_forall. intros x Hx.
    apply in_inv in Hx as [<-|Hx]; [lia|]. apply in_app_or in Hx as [Hx|[<-|[]]]; [|lia].
    apply in_flat_map in Hx as (d & Hd & Hx). apply in_seq in Hd.
    assert (Z.of_nat d <= N)%Z by (rewrite <- (Z2Nat.id N) by lia; lia).
    unfold progress_before, progress_after in Hx.
    destruct Hx as [<-|[<-|[]]]; nia.
Qed.

Lemma day_loop_fallback jid tid now answer t dest rest N
    (Hd : destinations t = dest :: rest)
    (Hr : forall d sm, exists e, answer d sm = Raised e) : forall k day summary s j,
  jobs s !! jid = Some j ->
  exists s', day_loop jid tid now answer (fun _ => None) t N k day summary s = (POk tt, s') /\
    db s' = (db s ++ map (fun d => (tid, to_db_row tid (ItineraryAgent.fallback_item dest d
                  (fmt_date (add_days (trip_start t) (Z.of_nat d - 1)))))) (seq day k))%list /\
    exists j', jobs s' !! jid = Some j' /\ same_ids j j'.
Proof.
  induction k as [|k IH]; intros day summary s j Hj.
  - exists s. simpl. rewrite app_nil_r. split; [reflexivity|]. split; [reflexivity|].
    exists j. split; [exact Hj|]. repeat split.
  - destruct (Hr day summary) as [e He].
    simpl. unfold bind. simpl. rewrite He. simpl. unfold ItineraryAgent.get_fallback_day. rewrite Hd.
    simpl.
    match goal with |- context [day_loop _ _ _ _ _ _ _ _ _ _ ?st] =>
      set (s2 := st) end.
    assert (Hj2 : exists j2, jobs s2 !! jid = Some j2 /\ same_ids j j2).
    { simpl. eexists. rewrite (RegistryFacts.update_lookup_same _ _ _ _ _ _ _ _ _
                                 (RegistryFacts.update_lookup_same _ _ _ _ _ _ _ _ _ Hj)).
      split; [reflexivity|]. repeat split. }
    destruct Hj2 as (j2 & Hj2 & Hid2).
    match goal with |- context [day_loop _ _ _ _ _ _ _ _ _ ?sm s2] =>
      destruct (IH (S day) sm s2 j2 Hj2) as (s' & E & Hdb & j' & Hj' & Hid') end.
    exists s'. split; [exact E|]. split.
    + rewrite Hdb. simpl. rewrite <- app_assoc. reflexivity.
    + exists j'. split; [exact Hj'|].
      destruct Hid2 as (? & ? & ? & ?), Hid' as (? & ? & ? & ?). repeat split; congruence.
Qed.


Ltac solve_lookup :=
  first [ eassumption
        | etransitivity; [eapply RegistryFacts.update_lookup_same; solve_lookup | reflexivity] ].

End TraceFacts.

Module TaskFacts.
Import TaskAgent.

Lemma drop_visa_ok l l' : drop_visa l = POk l' ->
  l' `sublist_of` l /\
  forall t, In t l' -> exists c, lower_of (jget t "category" (JStr "")) = POk c /\ c <> "visa".
Proof.
  revert l'. induction l as [|t l IH]; intros l' H; simpl in H.
  - inversion H; subst. split; [constructor|]. intros ? [].
  - destruct (lower_of (jget t "category" (JStr ""))) as [c|e] eqn:Ec; [|discriminate].
    destruct (drop_visa l) as [r|e]; [|discriminate].
    destruct (IH r eq_refl) as [Hs Hr]. inversion H; subst; clear H.
    destruct (String.eqb c "visa") eqn:Ev.
    + split; [constructor; exact Hs|exact Hr].
    + split; [constructor; exact Hs|].
      intros t' [<-|Ht]; [|exact (Hr t' Ht)].
      exists c. split; [exact Ec|]. intros ->. discriminate.
Qed.

Lemma drop_vaccine_ok l l' : drop_vaccine l = POk l' ->
  l' `sublist_of` l /\
  forall t, In t l' -> lower_of (jget t "category" (JStr "")) = POk "health" ->
            mentions_vaccine (jget t "title" (JStr "")) = POk false.
Proof.
  revert l'. induction l as [|t l IH]; intros l' H; simpl in H.
  - inversion H; subst. split; [constructor|]. intros ? [].
  - destruct (lower_of (jget t "category" (JStr ""))) as [c|e] eqn:Ec; [|discriminate].
    destruct (String.eqb c "health") eqn:Eh.
    + destruct (mentions_vaccine (jget t "title" (JStr ""))) as [b|e] eqn:Em; [|discriminate].
      destruct (drop_vaccine l) as [r|e]; [|discriminate].
      destruct (IH r eq_refl) as [Hs Hr]. inversion H; subst; clear H.
      destruct b.
      * split; [constructor; exact Hs|exact Hr].
      * split; [constructor; exact Hs|].
        intros t' [<-|Ht] Hc; [exact Em|exact (Hr t' Ht Hc)].
    + destruct (drop_vaccine l) as [r|e]; [|discriminate].
      destruct (IH r eq_refl) as [Hs Hr]. inversion H; subst; clear H.
      split; [constructor; exact Hs|].
      intros t' [<-|Ht] Hc; [|exact (Hr t' Ht Hc)].
      rewrite Ec in Hc. inversion Hc; subst. discriminate.
Qed.

Lemma mk_task_category a b c d : jget (mk_task a b c d) "category" (JStr "") = JStr c.
Proof. reflexivity. Qed.

Lemma transport_tasks_category dests t :
  In t (transport_tasks dests) -> exists a b, t = mk_task a b "transportation" "medium".
Proof.
  induction dests as [|x [|y r] IH]; simpl; try tauto.
  intros [<-|Ht]; [do 2 eexists; reflexivity|exact (IH Ht)].
Qed.

Lemma fallback_task_category dests t :
  In t (get_fallback_tasks dests) ->
  exists c, jget t "category" (JStr "") = JStr c /\ In c fallback_categories.
Proof.
  unfold get_fallback_tasks. intros Ht.
  repeat (apply in_app_or in Ht as [Ht|Ht]).
  - destruct Ht as [<-|[<-|[]]]; eexists; (split; [reflexivity|simpl; tauto]).
  - apply in_map_iff in Ht as (d & <- & _). eexists; (split; [reflexivity|simpl; tauto]).
  - apply transport_tasks_category in Ht as (a & b & ->).
    eexists; (split; [reflexivity|simpl; tauto]).
  - destruct Ht as [<-|[<-|[<-|[]]]]; eexists; (split; [reflexivity|simpl; tauto]).
Qed.

Lemma fallback_tasks_ok dests :
  (forall t, In t (get_fallback_tasks dests) ->
     exists c, lower_of (jget t "category" (JStr "")) = POk c /\ c <> "visa") /\
  (forall t, In t (get_fallback_tasks dests) ->
     lower_of (jget t "category" (JStr "")) = POk "health" ->
     mentions_vaccine (jget t "title" (JStr "")) = POk false).
Proof.
  split; intros t Ht; destruct (fallback_task_category dests t Ht) as (c & Hc & Hin);
    rewrite Hc; simpl.
  - exists (PyStr.lower c). split; [reflexivity|].
    simpl in Hin. repeat destruct Hin as [<-|Hin]; try destruct Hin; discriminate.
  - intros Hh. simpl in Hin. exfalso.
    repeat destruct Hin as [<-|Hin]; try destruct Hin; discriminate.
Qed.


End TaskFacts.

Module ExtractFacts.
Import PyStr.


Lemma contains_cons_inv c s : contains backtick (String c s) = false ->
  Ascii.eqb "`"%char c = false /\ contains backtick s = false.
Proof.
  unfold backtick. intros H. cbn [contains strip_prefix] in H.
  destruct (Ascii.eqb "`"%char c); [discriminate|]. tauto.
Qed.

Lemma contains_sub_bt p s : contains backtick s = false -> contains (String "`"%char p) s = false.
Proof.
  induction s as [|c s IH]; intros H; [reflexivity|].
  apply contains_cons_inv in H as [Hc Hs]. cbn [contains strip_prefix]. rewrite Hc. apply IH, Hs.
Qed.

Lemma lstrip_no_bt s : contains backtick s = false -> contains backtick (lstrip s) = false.
Proof.
  induction s as [|c s IH]; intros H; [reflexivity|].
  simpl. destruct (is_space c); [|exact H]. apply IH. apply contains_cons_inv in H; tauto.
Qed.

Lemma rstrip_no_bt s : contains backtick s = false -> contains backtick (rstrip s) = false.
Proof.
  induction s as [|c s IH]; intros H; [reflexivity|].
  apply contains_cons_inv in H as [Hc Hs]. cbn [rstrip].
  destruct (is_space c && String.eqb (rstrip s) EmptyString); [reflexivity|].
  unfold backtick. cbn [contains strip_prefix]. rewrite Hc. apply IH, Hs.
Qed.

Lemma strip_no_bt s : contains backtick s = false -> contains backtick (strip s) = false.
Proof. intros H. apply rstrip_no_bt, lstrip_no_bt, H. Qed.

Lemma clean_fences_plain s : contains backtick s = false ->
  ItineraryAgent.clean_fences s = strip s.
Proof.
  intros H. unfold ItineraryAgent.clean_fences.
  pose proof (strip_no_bt s H) as H'.
  rewrite (contains_sub_bt _ _ H'), (contains_sub_bt _ _ H'). reflexivity.
Qed.

Lemma sapp_cons c (a b : string) : (String c a ++ b) = String c (a ++ b).
Proof. reflexivity. Qed.

Lemma sapp_assoc (a b c : string) : ((a ++ b) ++ c) = (a ++ b ++ c).
Proof. induction a as [|x a IH]; [reflexivity|]. rewrite !sapp_cons, IH. reflexivity. Qed.

Lemma sapp_nil (a : string) : (a ++ EmptyString) = a.
Proof. induction a as [|x a IH]; [reflexivity|]. rewrite sapp_cons, IH. reflexivity. Qed.

Lemma lstrip_app a b :
  lstrip (a ++ b) = match lstrip a with EmptyString => lstrip b | a' => (a' ++ b) end.
Proof.
  induction a as [|c a IH]; [reflexivity|]. rewrite sapp_cons. cbn [lstrip].
  destruct (is_space c); [exact IH|reflexivity].
Qed.

Lemma lstrip_all_space s : all_space s = true -> lstrip s = EmptyString.
Proof.
  induction s as [|c s IH]; [reflexivity|]. simpl. intros H.
  apply andb_true_iff in H as [-> H]. apply IH, H.
Qed.

Lemma rstrip_all_space s : all_space s = true -> rstrip s = EmptyString.
Proof.
  induction s as [|c s IH]; [reflexivity|]. simpl. intros H.
  apply andb_true_iff in H as [-> H]. rewrite IH by exact H. reflexivity.
Qed.

Lemma rstrip_app_space a b : all_space b = true -> rstrip (a ++ b) = rstrip a.
Proof.
  intros Hb. induction a as [|c a IH]; [apply rstrip_all_space, Hb|].
  rewrite sapp_cons. cbn [rstrip]. rewrite IH. reflexivity.
Qed.

Lemma strip_spaces pre t post : all_space pre = true -> all_space post = true ->
  strip (pre ++ t ++ post) = strip t.
Proof.
  intros Hpre Hpost. unfold strip.
  rewrite lstrip_app, lstrip_all_space by exact Hpre. rewrite lstrip_app.
  destruct (lstrip t) as [|c r] eqn:E.
  - rewrite lstrip_all_space by exact Hpost. reflexivity.
  - rewrite rstrip_app_space by exact Hpost. reflexivity.
Qed.

Lemma split_first_fence a : contains backtick a = false ->
  split_first "```" (a ++ "```") = Some (a, EmptyString).
Proof.
  induction a as [|c a IH]; intros H; [reflexivity|].
  apply contains_cons_inv in H as [Hc Hs]. rewrite sapp_cons. cbn [split_first strip_prefix].
  rewrite Hc. rewrite IH by exact Hs. reflexivity.
Qed.

Lemma no_json_fence a : contains backtick a = false -> contains "```json" (a ++ "```") = false.
Proof.
  induction a as [|c a IH]; intros H; [reflexivity|].
  apply contains_cons_inv in H as [Hc Hs]. rewrite sapp_cons. cbn [contains strip_prefix].
  rewrite Hc. apply IH, Hs.
Qed.

Lemma split_first_absent sep s : contains sep s = false -> split_first sep s = None.
Proof.
  induction s as [|c s IH]; intros H; simpl in *;
    destruct (strip_prefix sep _); try discriminate; [reflexivity|].
  rewrite IH by exact H. reflexivity.
Qed.

Lemma strip_fenced (y : string) :
  strip ("```json" ++ y ++ "```") = ("```json" ++ y ++ "```").
Proof.
  unfold strip.
  assert (Hl : lstrip ("```json" ++ y ++ "```") = ("```json" ++ y ++ "```")) by reflexivity.
  assert (Hr : forall a, rstrip (a ++ "```") = (a ++ "```")).
  { induction a as [|c a IH]; [reflexivity|]. rewrite sapp_cons. cbn [rstrip]. rewrite IH.
    destruct a; simpl; rewrite andb_false_r; reflexivity. }
  rewrite Hl, <- sapp_assoc, Hr, sapp_assoc. reflexivity.
Qed.

Lemma pval_letter f c r : is_ascii_letter c = true ->
  negb (existsb (Ascii.eqb c) ["t"; "f"; "n"; "I"; "N"]%char) = true ->
  Json.pval (S f) (c :: r) = None.
Proof.
  destruct c as [[] [] [] [] [] [] [] []]; vm_compute; intros H1 H2;
    solve [discriminate | reflexivity].
Qed.

Lemma skip_ws_letter c r : is_ascii_letter c = true -> Json.skip_ws (c :: r) = c :: r.
Proof.
  destruct c as [[] [] [] [] [] [] [] []]; vm_compute; intros H1;
    solve [discriminate | reflexivity].
Qed.

Lemma all_space_no_bt s : all_space s = true -> contains backtick s = false.
Proof.
  induction s as [|c s IH]; [reflexivity|]. intros H. cbn [all_space] in H.
  apply andb_true_iff in H as [Hc Hs]. unfold backtick. cbn [contains strip_prefix].
  destruct c as [[] [] [] [] [] [] [] []]; vm_compute in Hc; try discriminate;
    apply IH, Hs.
Qed.

Lemma contains_bt_app a b : contains backtick a = false -> contains backtick b = false ->
  contains backtick (a ++ b) = false.
Proof.
  induction a as [|c a IH]; intros Ha Hb; [exact Hb|].
  apply contains_cons_inv in Ha as [Hc Hs]. rewrite sapp_cons. unfold backtick.
  cbn [contains strip_prefix]. rewrite Hc. apply IH; assumption.
Qed.

Lemma fenced_clean pre t post : contains backtick t = false ->
  all_space pre = true -> all_space post = true ->
  ItineraryAgent.clean_fences ("```json" ++ pre ++ t ++ post ++ "```") = strip t.
Proof.
  intros Ht Hpre Hpost.
  assert (Hy : contains backtick (pre ++ t ++ post) = false)
    by (apply contains_bt_app; [apply all_space_no_bt, Hpre|];
        apply contains_bt_app; [exact Ht | apply all_space_no_bt, Hpost]).
  replace (pre ++ t ++ post ++ "```") with ((pre ++ t ++ post) ++ "```")
    by (rewrite !sapp_assoc; reflexivity).
  remember (pre ++ t ++ post) as y eqn:Ey.
  unfold ItineraryAgent.clean_fences.
  rewrite (strip_fenced y).
  change (contains "```json" ("```json" ++ y ++ "```")) with true.
  cbv iota beta.
  unfold split_second.
  change (split_first "```json" ("```json" ++ y ++ "```"))
    with (Some (EmptyString, (y ++ "```"))).
  cbv iota beta.
  unfold split_head.
  rewrite (split_first_absent "```json") by (apply no_json_fence, Hy).
  rewrite split_first_fence by exact Hy.
  subst y.
  apply strip_spaces; assumption.
Qed.

Lemma prose_fails text c rest sd : contains backtick text = false -> strip text = String c rest ->
  is_ascii_letter c = true ->
  negb (existsb (Ascii.eqb c) ["t"; "f"; "n"; "I"; "N"]%char) = true ->
  ItineraryAgent.parse_itinerary_response text sd = PExc "JSONDecodeError".
Proof.
  intros Hb Hs Hl Hn. unfold ItineraryAgent.parse_itinerary_response.
  rewrite clean_fences_plain by exact Hb. rewrite Hs.
  unfold json_loads. change (Json.chars (String c rest)) with (c :: Json.chars rest).
  rewrite skip_ws_letter by exact Hl.
  replace (2 * length (c :: Json.chars rest) + 2)%nat
    with (S (2 * length (c :: Json.chars rest) + 1)) by lia.
  rewrite pval_letter by assumption. reflexivity.
Qed.


End ExtractFacts.

Module AccommodationFacts.
Import AccommodationAgent.





Section Sec.
Variable split_sections : string -> list string.
Variables find_name find_location find_description find_why : string -> option string.
Variable price_captures : string -> string -> list string.


End Sec.





Lemma le_int_float_mono p p' x : (p <= p')%Z ->
  PyDouble.le_int_float p' x = true -> PyDouble.le_int_float p x = true.
Proof.
  destruct x as [q|[]]; simpl; intros Hp H; try reflexivity; try discriminate.
  apply Qle_bool_iff in H. apply Qle_bool_iff. eapply Qle_trans; [|exact H].
  rewrite <- Zle_Qle. exact Hp.
Qed.


(** Python's float arithmetic on two budgets: [35 / 3 * 0.6] is
    [6.999999999999999], so a price of 7 is mid-range; [int(610 / 9 * 1.8)]
    is 121 (not 122); and [int(1.5 * 2^1023 * 1.8)] is [int(inf)]. *)
Lemma float_budget_examples :
  (exists bpn, PyDouble.int_truediv 35 3 = POk bpn /\
     PyDouble.fmul bpn PyDouble.lit_0_6 = PyDouble.DFin (7881299347898367 # 1125899906842624) /\
     determine_range_category 7 bpn "all" = "mid-range") /\
  (exists bpn, PyDouble.int_truediv 610 9 = POk bpn /\
     option_map p_price (match create_fallback_recommendation "Tokyo" 3 bpn "all" with
                         | POk p => Some p | PExc _ => None end) = Some (Some 121%Z)) /\
  create_fallback_recommendation "Tokyo" 1 (inject_Z (3 * 2 ^ 1022)) "luxury" = PExc overflow_error.
Proof.
  split; [|split].
  - exists (match PyDouble.int_truediv 35 3 with POk q => q | PExc _ => 0%Q end).
    split; [|split]; vm_compute; reflexivity.
  - exists (match PyDouble.int_truediv 610 9 with POk q => q | PExc _ => 0%Q end).
    split; vm_compute; reflexivity.
  - vm_compute. reflexivity.
Qed.




End AccommodationFacts.

Module VaccineFacts.
Import VaccineAgent.

Lemma scan_sound (m : nat -> option (list ascii)) fuel k len p w :
  In (p, w) (scan m fuel k len) -> m p = Some w.
Proof.
  revert k. induction fuel as [|f IH]; intros k H; simpl in H; [contradiction|].
  destruct (len <? k)%nat; [contradiction|].
  destruct (m k) eqn:E.
  - destruct H as [[= <- <-]|H]; [exact E|]. eapply IH, H.
  - eapply IH, H.
Qed.

Lemma required_window text v : is_vaccine_required text v = true ->
  exists k w, window_at (list_ascii_of_string (PyStr.lower text))
                        (list_ascii_of_string (PyStr.lower v)) k = Some w /\
              has_mandatory w = true.
Proof.
  unfold is_vaccine_required, findall_windows. intros H.
  apply existsb_exists in H as [m [Hm Hw]].
  apply in_map_iff in Hm as [[k w] [<- Hin]].
  apply scan_sound in Hin. exists k, w. split; [exact Hin|exact Hw].
Qed.

Lemma tasks_inv text dests t : In t (create_tasks_from_research text dests) ->
  exists v ctx ds, In v vaccine_keywords /\ is_vaccine_required text v = true /\
                   t = create_vaccine_task v ctx ds.
Proof.
  unfold create_tasks_from_research. intros H.
  apply in_flat_map in H as [[v info] [Hf Ht]].
  apply in_flat_map in Hf as [v' [Hv Hf]].
  destruct (PyStr.contains _ _); [|contradiction].
  destruct Hf as [Heq|[]]. injection Heq as Ev Ei. subst. simpl in Ht.
  destruct (is_vaccine_required text _) eqn:E; [|contradiction].
  destruct Ht as [<-|[]]. eexists _, _, _. split; [exact Hv|]. split; [exact E|reflexivity].
Qed.

Lemma vaccine_title_inj :
  Forall (fun v => Forall (fun v' => String.eqb (vaccine_title v) (vaccine_title v') = String.eqb v v')
                     vaccine_keywords) vaccine_keywords.
Proof. vm_compute. repeat constructor. Qed.

Lemma no_mandatory_windows t n : n <> [] ->
  forallb (fun k => match window_at t n k with Some w => negb (has_mandatory w) | None => true end)
          (seq 0 (S (length t))) = true ->
  forall k w, window_at t n k = Some w -> has_mandatory w = false.
Proof.
  intros Hn Hall k w Hw. destruct (Nat.le_gt_cases (S (length t)) k) as [Hk|Hk].
  - unfold window_at, word_at_pos in Hw. rewrite skipn_all2 in Hw by lia.
    destruct n as [|c n]; [contradiction|]. cbn [is_prefix] in Hw.
    rewrite andb_false_r in Hw. cbn in Hw. discriminate.
  - apply forallb_forall with (x := k) in Hall; [|apply in_seq; lia].
    rewrite Hw in Hall. destruct (has_mandatory w); [discriminate|reflexivity].
Qed.


End VaccineFacts.

Module InvFacts.
Import Pipeline.

Section Pres.
Variable R : St -> St -> Prop.
Hypothesis R_refl : forall s, R s s.
Hypothesis R_trans : forall s1 s2 s3, R s1 s2 -> R s2 s3 -> R s1 s3.

(** [m] relates its start and end states by [R], whatever its outcome. *)
Definition pres {A} (m : M A) : Prop := forall s r s', m s = (r, s') -> R s s'.

Lemma pres_ret {A} (a : A) : pres (ret a).
Proof. intros s r s' H. injection H as _ <-. apply R_refl. Qed.

Lemma pres_raise {A} e : pres (@raise A e).
Proof. intros s r s' H. injection H as _ <-. apply R_refl. Qed.

Lemma pres_lift {A} (r : PyRes A) : pres (lift r).
Proof. destruct r; [apply pres_ret | apply pres_raise]. Qed.

Lemma pres_bind {A B} (m : M A) (k : A -> M B) :
  pres m -> (forall a, pres (k a)) -> pres (bind m k).
Proof.
  intros Hm Hk s r s' H. unfold bind in H.
  destruct (m s) as [[a|e] s1] eqn:E.
  - eapply R_trans; [eapply Hm; exact E | eapply Hk; exact H].
  - injection H as _ <-. eapply Hm; exact E.
Qed.

Lemma pres_try {A} (m : M A) h :
  pres m -> (forall e, pres (h e)) -> pres (try_except m h).
Proof.
  intros Hm Hh s r s' H. unfold try_except in H.
  destruct (m s) as [[a|e] s1] eqn:E.
  - injection H as _ <-. eapply Hm; exact E.
  - eapply R_trans; [eapply Hm; exact E | eapply Hh; exact H].
Qed.

Lemma pres_titles l : pres (titles l).
Proof.
  induction l as [|it rest IH]; simpl.
  - apply pres_ret.
  - destruct (jget it "title" (JStr "")); try apply pres_raise.
    apply pres_bind; [exact IH | intros; apply pres_ret].
Qed.

Lemma pres_select tid : pres (select_items tid).
Proof. intros s r s' H. injection H as _ <-. apply R_refl. Qed.

End Pres.

(** The registry keeps every progress in [0, 100]. *)
Definition R_prog (s s' : St) : Prop := progress_ok (jobs s) -> progress_ok (jobs s').

Lemma update_progress_ok (js : Jobs) jid st prog msg res err now :
  progress_ok js -> (0 <= prog <= 100)%Z ->
  progress_ok (JobService.update_job_status js jid st prog msg res err now).
Proof.
  intros H Hp. unfold JobService.update_job_status.
  destruct (js !! jid) eqn:E; [|exact H].
  apply map_Forall_insert_2; [exact Hp | exact H].
Qed.

Lemma create_progress_ok (js : Jobs) jid tid jt now :
  progress_ok js -> progress_ok (JobService.create_job js jid tid jt now).
Proof.
  intros H. unfold JobService.create_job. apply map_Forall_insert_2; [simpl; lia | exact H].
Qed.

Lemma pres_update_prog jid st prog msg res err now :
  (0 <= prog <= 100)%Z -> pres R_prog (update jid st prog msg res err now).
Proof.
  intros Hp s r s' H Hs. injection H as _ <-. simpl. apply update_progress_ok; assumption.
Qed.

Lemma R_prog_refl s : R_prog s s.
Proof. unfold R_prog; auto. Qed.

Lemma R_prog_trans s1 s2 s3 : R_prog s1 s2 -> R_prog s2 s3 -> R_prog s1 s3.
Proof. unfold R_prog; auto. Qed.

Lemma pres_save_prog tid items fail : pres R_prog (save_itinerary_items tid items fail).
Proof.
  unfold save_itinerary_items. destruct fail.
  - apply pres_raise, R_prog_refl.
  - intros s r s' H. injection H as _ <-. unfold R_prog; simpl; auto.
Qed.

Lemma pres_delete_prog tid fail : pres R_prog (delete_items tid fail).
Proof.
  unfold delete_items. destruct fail.
  - apply pres_raise, R_prog_refl.
  - intros s r s' H. injection H as _ <-. unfold R_prog; simpl; auto.
Qed.

Ltac pres_prog :=
  repeat match goal with
  | |- pres R_prog (try_except _ _) => apply pres_try; [exact R_prog_trans| |intro]
  | |- pres R_prog (bind _ _) => apply pres_bind; [exact R_prog_trans| |intro]
  | |- pres R_prog (ret _) => apply pres_ret, R_prog_refl
  | |- pres R_prog (raise _) => apply pres_raise, R_prog_refl
  | |- pres R_prog (lift _) => apply pres_lift, R_prog_refl
  | |- pres R_prog (titles _) => apply pres_titles; [exact R_prog_refl|exact R_prog_trans]
  | |- pres R_prog (select_items _) => apply pres_select, R_prog_refl
  | |- pres R_prog (save_itinerary_items _ _ _) => apply pres_save_prog
  | |- pres R_prog (delete_items _ _) => apply pres_delete_prog
  | |- pres R_prog (update _ _ _ _ _ _ _) => apply pres_update_prog; try lia
  | |- pres R_prog (match ?x with _ => _ end) => destruct x
  end.

Lemma day_loop_prog jid tid now answer save_fail t N : forall k day summary,
  (1 <= day)%nat -> k = O \/ (Z.of_nat (day + k) <= N + 1)%Z ->
  pres R_prog (day_loop jid tid now answer save_fail t N k day summary).
Proof.
  induction k as [|k IH]; intros day summary Hd Hk; simpl.
  - apply pres_ret, R_prog_refl.
  - destruct Hk as [Hk|Hk]; [discriminate|].
    assert (HN : (0 < N)%Z) by lia.
    pose proof (Z.mul_div_le 80 N HN) as Hm.
    assert (Hq : (0 <= 80 / N)%Z) by (apply Z.div_pos; lia).
    pres_prog; try nia.
    all: apply IH; [lia | right; lia].
Qed.

Lemma generate_prog jid tid now answer save_fail trip :
  pres R_prog (generate_itinerary_async jid tid now answer save_fail trip).
Proof.
  unfold generate_itinerary_async, generate_itinerary_body. pres_prog.
  apply day_loop_prog; [lia|].
  destruct (Z_le_gt_dec 0 (days_between (trip_start a0) (trip_end a0) + 1)); [right|left]; lia.
Qed.

Lemma modify_prog jid tid now answer df inf trip :
  pres R_prog (modify_itinerary_async jid tid now answer df inf trip).
Proof. unfold modify_itinerary_async, modify_itinerary_body. pres_prog. Qed.

Lemma tasks_prog jid tid now visa vac answer save_fail trip :
  pres R_prog (TaskPipeline.generate_tasks_async jid tid now visa vac answer save_fail trip).
Proof.
  unfold TaskPipeline.generate_tasks_async, TaskPipeline.generate_tasks_body, TaskPipeline.save_tasks. pres_prog.
Qed.

End InvFacts.

Module DbFacts.
Import Pipeline InvFacts.

(** [s'] holds the rows of [s], followed by rows of trip [tid] built by
    [to_db_row tid]. *)
Definition R_db (tid : string) (s s' : St) : Prop :=
  exists added, db s' = (db s ++ added)%list /\
    Forall (fun p => fst p = tid /\ exists it, snd p = to_db_row tid it) added.

Lemma R_db_refl tid s : R_db tid s s.
Proof. exists []. rewrite app_nil_r. split; [reflexivity|constructor]. Qed.

Lemma R_db_trans tid s1 s2 s3 : R_db tid s1 s2 -> R_db tid s2 s3 -> R_db tid s1 s3.
Proof.
  intros (a1 & E1 & F1) (a2 & E2 & F2). exists (a1 ++ a2)%list.
  rewrite E2, E1, app_assoc. split; [reflexivity|apply Forall_app; split; assumption].
Qed.

Lemma pres_update_db tid jid st prog msg res err now :
  pres (R_db tid) (update jid st prog msg res err now).
Proof. intros s r s' H. injection H as _ <-. apply (R_db_refl tid s). Qed.

Lemma pres_save_db tid items fail : pres (R_db tid) (save_itinerary_items tid items fail).
Proof.
  unfold save_itinerary_items. destruct fail.
  - apply pres_raise, R_db_refl.
  - intros s r s' H. injection H as _ <-.
    exists (map (fun r => (tid, r)) (map (to_db_row tid) items)). split; [reflexivity|].
    apply List.Forall_forall. intros p Hp. apply in_map_iff in Hp as (row & <- & Hrow).
    apply in_map_iff in Hrow as (it & <- & _). split; [reflexivity|exists it; reflexivity].
Qed.

Ltac pres_db tid :=
  repeat match goal with
  | |- pres _ (try_except _ _) => apply pres_try; [exact (R_db_trans tid)| |intro]
  | |- pres _ (bind _ _) => apply pres_bind; [exact (R_db_trans tid)| |intro]
  | |- pres _ (ret _) => apply pres_ret, R_db_refl
  | |- pres _ (raise _) => apply pres_raise, R_db_refl
  | |- pres _ (lift _) => apply pres_lift, R_db_refl
  | |- pres _ (titles _) => apply pres_titles; [exact (R_db_refl tid)|exact (R_db_trans tid)]
  | |- pres _ (save_itinerary_items _ _ _) => apply pres_save_db
  | |- pres _ (update _ _ _ _ _ _ _) => apply pres_update_db
  | |- pres _ (match ?x with _ => _ end) => destruct x
  end.

Lemma day_loop_db jid tid now answer save_fail t N : forall k day summary,
  pres (R_db tid) (day_loop jid tid now answer save_fail t N k day summary).
Proof.
  induction k as [|k IH]; intros day summary; simpl; pres_db tid; apply IH.
Qed.

Lemma generate_db jid tid now answer save_fail trip :
  pres (R_db tid) (generate_itinerary_async jid tid now answer save_fail trip).
Proof. unfold generate_itinerary_async, generate_itinerary_body. pres_db tid. apply day_loop_db. Qed.

End DbFacts.

Module ItineraryExtFacts.
Import ItineraryAgentExt.

Lemma fallback_loop_closed start dests : dests <> [] -> forall k day items,
  length items = (2 * day)%nat ->
  fallback_loop start dests k day items =
    POk (items ++ flat_map (fallback_day start dests) (seq day k))%list.
Proof.
  intros Hne. induction k as [|k IH]; intros day items Hl; simpl.
  - rewrite app_nil_r. reflexivity.
  - destruct dests as [|d0 ds]; [congruence|].
    rewrite IH by (rewrite !length_app; simpl; lia).
    rewrite <- !app_assoc. unfold fallback_day. simpl.
    rewrite length_app. simpl. rewrite Hl.
    replace (2 * day + 1)%nat with (S (2 * day)) by lia. reflexivity.
Qed.

Lemma fallback_day_length start dests l :
  length (flat_map (fallback_day start dests) l) = (2 * length l)%nat.
Proof. induction l; simpl; [reflexivity|]. rewrite IHl. lia. Qed.

Lemma jget_absent kv k d : TaskAgent.has_key kv k = false -> jget kv k d = d.
Proof.
  unfold jget, TaskAgent.has_key. revert d. induction kv as [|[k' v] r IH]; intros d H; simpl in *.
  - reflexivity.
  - apply orb_false_iff in H as [H1 H2]. rewrite H1. apply IH, H2.
Qed.

Lemma validate_items_ok sd : forall l i items,
  ItineraryAgent.validate_items sd i l = POk items ->
  length items = length l /\ Forall (fun it => map fst it = itinerary_keys) items /\
  forall n kv it, nth_error l n = Some (JObj kv) -> nth_error items n = Some it ->
    TaskAgent.has_key kv "order_index" = false ->
    jget it "order_index" JNull = JNum (str_of_nat (i + n)).
Proof.
  induction l as [|v l IH]; intros i items H; simpl in H.
  - injection H as <-. split; [reflexivity|split; [constructor|]]. intros [|n]; discriminate.
  - destruct (ItineraryAgent.validate_item sd i v) as [it|e] eqn:Ev; [|discriminate].
    destruct (ItineraryAgent.validate_items sd (S i) l) as [its|e] eqn:El; [|discriminate].
    injection H as <-. destruct (IH _ _ El) as (H1 & H2 & H3).
    destruct v; try discriminate Ev. injection Ev as <-.
    split; [simpl; congruence|split; [constructor; [reflexivity|exact H2]|]].
    intros [|n] kv0 it0 Hn Hit Hk; simpl in Hn, Hit.
    + injection Hn as ->. injection Hit as <-. rewrite Nat.add_0_r.
      cbn -[jget]. unfold jget at 1. simpl. rewrite jget_absent by exact Hk. reflexivity.
    + rewrite (H3 n kv0 it0 Hn Hit Hk). f_equal. f_equal. lia.
Qed.

Lemma validate_items_non_object sd : forall l i v,
  In v l -> (forall kv, v <> JObj kv) -> exists e, ItineraryAgent.validate_items sd i l = PExc e.
Proof.
  induction l as [|w l IH]; intros i v Hin Hv; [destruct Hin|].
  simpl. destruct Hin as [->|Hin].
  - destruct v; try (eexists; reflexivity). exfalso; eapply Hv; reflexivity.
  - destruct (ItineraryAgent.validate_item sd i w); [|eexists; reflexivity].
    destruct (IH (S i) v Hin Hv) as [e ->]. eexists; reflexivity.
Qed.

End ItineraryExtFacts.

Module TaskExtFacts.
Import TaskAgent.

Lemma drop_while_head {A} (f : A -> bool) l b r : drop_while f l = b :: r -> f b = false.
Proof.
  induction l as [|x l IH]; simpl; [discriminate|].
  destruct (f x) eqn:E; [exact IH|]. intros H. injection H as -> _. exact E.
Qed.

Lemma bracket_span_open text s : bracket_span text = Some s -> exists r, s = String "[" r.
Proof.
  unfold bracket_span.
  destruct (drop_while _ (list_ascii_of_string text)) as [|b rest] eqn:E; [discriminate|].
  apply drop_while_head in E. apply negb_false_iff, Ascii.eqb_eq in E as ->.
  destruct (upto_last "]" rest); [|discriminate].
  intros H. injection H as <-. eexists; reflexivity.
Qed.

Lemma pval_open f x v r' :
  Json.pval (S f) ("["%char :: x) = Some (v, r') -> exists l, v = JArr l.
Proof.
  cbn [Json.pval]. change ("["%char =? "034"%char)%char with false.
  change ("["%char =? "["%char)%char with true. cbv iota.
  destruct (Json.parr f (Json.skip_ws x)) as [[l r0]|]; simpl; [|discriminate].
  intros H. injection H as <- _. eexists; reflexivity.
Qed.

Lemma json_loads_open r v : json_loads (String "[" r) = Some v -> exists l, v = JArr l.
Proof.
  unfold json_loads. change (Json.chars (String "[" r)) with ("["%char :: Json.chars r).
  replace (2 * length ("["%char :: Json.chars r) + 2)%nat
    with (S (S (2 * length (Json.chars r) + 2)))%nat by (simpl; lia).
  change (Json.skip_ws ("["%char :: Json.chars r)) with ("["%char :: Json.chars r).
  destruct (Json.pval _ _) as [[v0 r0]|] eqn:E; [|discriminate].
  destruct (Json.skip_ws r0); [|discriminate]. intros H. injection H as <-.
  exact (pval_open _ _ _ _ E).
Qed.

Lemma default_tasks_shape : Forall task_shape get_default_fallback_tasks.
Proof. repeat constructor. Qed.

Lemma valid_tasks_shape l : Forall task_shape (valid_tasks l).
Proof.
  induction l as [|v l IH]; simpl; [constructor|].
  apply Forall_app; split; [|exact IH].
  destruct v; try constructor.
  destruct (has_key kv "title" && has_key kv "category"); repeat constructor.
Qed.

Lemma parse_task_response_ok text : exists tasks,
  parse_task_response text = POk tasks /\ tasks <> [] /\ Forall task_shape tasks.
Proof.
  unfold parse_task_response.
  destruct (bracket_span text) as [s|] eqn:Eb;
    [|eexists; split; [reflexivity|split; [discriminate|apply default_tasks_shape]]].
  destruct (json_loads s) as [v|] eqn:Ej;
    [|eexists; split; [reflexivity|split; [discriminate|apply default_tasks_shape]]].
  destruct (bracket_span_open _ _ Eb) as [r ->].
  destruct (json_loads_open _ _ Ej) as [l ->].
  destruct (valid_tasks l) as [|t ts] eqn:Ev.
  - eexists; split; [reflexivity|split; [discriminate|apply default_tasks_shape]].
  - eexists; split; [reflexivity|split; [discriminate|]]. rewrite <- Ev. apply valid_tasks_shape.
Qed.

Lemma fallback_tasks_nonempty dests : get_fallback_tasks dests <> [].
Proof. unfold get_fallback_tasks. simpl. discriminate. Qed.

Lemma generate_tasks_nonempty visa vac answer dests :
  generate_tasks visa vac answer dests <> [].
Proof.
  unfold generate_tasks, merge_tasks.
  assert (Hf : forall l : list Item, (match l with [] => get_fallback_tasks dests
                             | _ :: _ => (l ++ get_fallback_tasks dests)%list end) <> []).
  { intros [|x l]; [apply fallback_tasks_nonempty|discriminate]. }
  destruct answer as [e|c]; [apply Hf|].
  destruct (parse_task_response_ok c) as (g & -> & Hg & _).
  destruct visa as [|v vs].
  - destruct vac as [|w ws]; [simpl; exact Hg|].
    destruct (drop_vaccine g); [discriminate|apply Hf].
  - destruct (drop_visa g) as [g'|e]; [|apply Hf].
    destruct vac as [|w ws]; [discriminate|].
    destruct (drop_vaccine g'); [discriminate|apply Hf].
Qed.

Lemma transport_tasks_length dests : length (transport_tasks dests) = pred (length dests).
Proof. induction dests as [|x [|y r] IH]; simpl in *; [reflexivity|reflexivity|]. rewrite IH. reflexivity. Qed.

End TaskExtFacts.

Module AccommodationExtFacts.
Import AccommodationAgent.


End AccommodationExtFacts.

Module VaccineExtFacts.
Import VaccineAgent.

Lemma length_string_of_list l : String.length (string_of_list_ascii l) = length l.
Proof. induction l; simpl; congruence. Qed.

Lemma length_list_of_string s : length (list_ascii_of_string s) = String.length s.
Proof. induction s; simpl; congruence. Qed.

Lemma length_sapp (a b : string) : String.length (a ++ b) = (String.length a + String.length b)%nat.
Proof. induction a; [reflexivity|rewrite ExtractFacts.sapp_cons; simpl; congruence]. Qed.

Lemma slice_length s k : (k <= String.length s)%nat -> String.length (slice s 0 k) = k.
Proof.
  intros H. unfold slice. rewrite length_string_of_list, length_firstn.
  change (skipn 0 ?l) with l. rewrite length_list_of_string. lia.
Qed.

Lemma fold_applicable (near : string -> bool) : forall l acc,
  NoDup acc ->
  NoDup (fold_left (fun acc d => if near d && negb (existsb (String.eqb d) acc)
                                 then (acc ++ [d])%list else acc) l acc) /\
  incl (fold_left (fun acc d => if near d && negb (existsb (String.eqb d) acc)
                                then (acc ++ [d])%list else acc) l acc) (acc ++ l).
Proof.
  induction l as [|d l IH]; intros acc Hnd; simpl.
  - rewrite app_nil_r. split; [exact Hnd|apply incl_refl].
  - destruct (near d && negb (existsb (String.eqb d) acc)) eqn:E.
    + apply andb_true_iff in E as [_ E]. apply negb_true_iff in E.
      assert (Hn : ~ In d acc).
      { intros Hin. assert (existsb (String.eqb d) acc = true) by
          (apply existsb_exists; exists d; split; [exact Hin|apply String.eqb_refl]).
        congruence. }
      assert (Hnd' : NoDup (acc ++ [d])%list).
      { apply NoDup_app. split; [exact Hnd|split; [|apply NoDup_singleton]].
        intros x Hx Hx'. apply list_elem_of_singleton in Hx'. subst x.
        apply Hn, list_elem_of_In, Hx. }
      destruct (IH _ Hnd') as [H1 H2]. split; [exact H1|].
      intros x Hx. apply H2 in Hx. rewrite <- app_assoc in Hx. exact Hx.
    + destruct (IH acc Hnd) as [H1 H2]. split; [exact H1|].
      intros x Hx. apply H2 in Hx. apply in_app_or in Hx as [Hx|Hx]; apply in_or_app; simpl; tauto.
Qed.

Lemma flat_map_at_most_one {A B} (f : A -> list B) l :
  (forall x, length (f x) <= 1)%nat -> (length (flat_map f l) <= length l)%nat.
Proof.
  intros Hf. induction l as [|x l IH]; simpl; [lia|].
  rewrite length_app. specialize (Hf x). lia.
Qed.

Lemma tasks_count text dests :
  (length (create_tasks_from_research text dests) <= length vaccine_keywords)%nat.
Proof.
  unfold create_tasks_from_research. etransitivity; apply flat_map_at_most_one.
  - intros [v info]. destruct (required info); simpl; lia.
  - intros v. destruct (PyStr.contains _ _); simpl; lia.
Qed.

End VaccineExtFacts.

Module VisaFacts.
Import VisaAgent.

Section Loop.
Variable VisaInfo : Type.
Variable get_country_code : string -> option string.
Variable check : string -> string -> PyRes (option VisaInfo).
Variable create : string -> string -> VisaInfo -> PyRes (list Item).

Lemma visa_loop_checks p : forall dests seen checks tasks,
  visa_loop VisaInfo get_country_code check create p seen dests = POk (checks, tasks) ->
  NoDup checks /\
  forall c, In c checks -> ~ In c seen /\ c <> p /\
            exists d, In d dests /\ get_country_code d = Some c.
Proof.
  induction dests as [|d rest IH]; intros seen checks tasks H; simpl in H.
  - injection H as <- <-. split; [constructor|intros c []].
  - assert (Hsub : forall seen' checks' tasks',
              visa_loop VisaInfo get_country_code check create p seen' rest = POk (checks', tasks') ->
              (forall c, In c seen -> In c seen') ->
              NoDup checks' /\
              forall c, In c checks' -> ~ In c seen /\ c <> p /\
                exists d', In d' (d :: rest) /\ get_country_code d' = Some c).
    { intros seen' checks' tasks' H' Hs. destruct (IH _ _ _ H') as [Hn Hc].
      split; [exact Hn|]. intros c Hin. destruct (Hc c Hin) as (H1 & H2 & d' & H3 & H4).
      split; [intros Hs'; apply H1, Hs, Hs'|split; [exact H2|exists d'; split; [right; exact H3|exact H4]]]. }
    destruct (get_country_code d) as [code|] eqn:Ed; [|exact (Hsub _ _ _ H (fun c x => x))].
    destruct (existsb (String.eqb code) seen) eqn:Es; [exact (Hsub _ _ _ H (fun c x => x))|].
    destruct (String.eqb code p) eqn:Ep; [exact (Hsub _ _ _ H (fun c x => or_intror x))|].
    destruct (match check p code with PExc e => PExc e | POk None => POk _ | POk (Some i) => _ end)
      as [ts|e]; [|discriminate].
    destruct (visa_loop VisaInfo get_country_code check create p (code :: seen) rest)
      as [[checks' tasks']|e] eqn:El; [|discriminate].
    injection H as <- <-.
    destruct (IH _ _ _ El) as [Hn Hc].
    assert (Hns : ~ In code seen).
    { intros Hin. assert (existsb (String.eqb code) seen = true) by
        (apply existsb_exists; exists code; split; [exact Hin|apply String.eqb_refl]). congruence. }
    split.
    + constructor; [|exact Hn]. intros Hin. apply list_elem_of_In in Hin.
      destruct (Hc code Hin) as [H1 _]. apply H1. left. reflexivity.
    + intros c [<-|Hin].
      * split; [exact Hns|split; [intros ->; rewrite String.eqb_refl in Ep; discriminate|]].
        exists d. split; [left; reflexivity|exact Ed].
      * destruct (Hc c Hin) as (H1 & H2 & d' & H3 & H4).
        split; [intros Hs'; apply H1; right; exact Hs'|split; [exact H2|]].
        exists d'. split; [right; exact H3|exact H4].
Qed.

End Loop.
End VisaFacts.

Module JsetFacts.

Lemma jget_fold_map (kv : list (string * JVal)) (k : string) (v acc : JVal) :
  fold_left (fun acc '(k', v') => if String.eqb k k' then v' else acc)
    (map (fun '(k', v') => if String.eqb k k' then (k', v) else (k', v')) kv) acc =
  if existsb (fun '(k', _) => String.eqb k k') kv then v else acc.
Proof.
  revert acc. induction kv as [|[k' v'] kv IH]; intros acc; simpl; [reflexivity|].
  destruct (String.eqb k k') eqn:E; simpl; rewrite E, IH;
    [destruct (existsb _ kv); reflexivity|reflexivity].
Qed.

Lemma jget_jset_same kv k v d : jget (jset kv k v) k d = v.
Proof.
  unfold jget, jset. destruct (existsb _ kv) eqn:E.
  - rewrite jget_fold_map, E. reflexivity.
  - rewrite fold_left_app. simpl. rewrite String.eqb_refl. reflexivity.
Qed.

Lemma jget_fold_map_other (kv : list (string * JVal)) (k k' : string) (v acc : JVal) : k <> k' ->
  fold_left (fun acc '(k0, v0) => if String.eqb k' k0 then v0 else acc)
    (map (fun '(k0, v0) => if String.eqb k k0 then (k0, v) else (k0, v0)) kv) acc =
  fold_left (fun acc '(k0, v0) => if String.eqb k' k0 then v0 else acc) kv acc.
Proof.
  intros Hne. revert acc. induction kv as [|[k0 v0] kv IH]; intros acc; simpl; [reflexivity|].
  destruct (String.eqb k k0) eqn:E; simpl; rewrite IH; [|reflexivity].
  apply String.eqb_eq in E. subst k0.
  replace (String.eqb k' k) with false by (symmetry; apply String.eqb_neq; congruence).
  reflexivity.
Qed.

Lemma jget_jset_other kv k k' v d : k <> k' -> jget (jset kv k v) k' d = jget kv k' d.
Proof.
  intros Hne. unfold jget, jset. destruct (existsb _ kv).
  - apply jget_fold_map_other, Hne.
  - rewrite fold_left_app. simpl.
    replace (String.eqb k' k) with false by (symmetry; apply String.eqb_neq; congruence).
    reflexivity.
Qed.

End JsetFacts.

Module SingleDayFacts.
Import ItineraryAgent.

Lemma tag_items_labelled d date : forall l i items,
  tag_items d date i l = POk items -> day_labelled d date items.
Proof.
  induction l as [|v l IH]; intros i items H; simpl in H.
  - injection H as <-. constructor.
  - destruct v; try discriminate.
    destruct (tag_items d date (S i) l) as [vs|e] eqn:E; [|discriminate].
    injection H as <-. constructor; [|exact (IH _ _ E)].
    split.
    + rewrite !JsetFacts.jget_jset_other by discriminate. apply JsetFacts.jget_jset_same.
    + rewrite JsetFacts.jget_jset_other by discriminate. apply JsetFacts.jget_jset_same.
Qed.

Lemma fallback_day_labelled t d date items :
  get_fallback_day t d date = POk items -> day_labelled d date items.
Proof.
  unfold get_fallback_day. destruct (destinations t); [discriminate|].
  intros H. injection H as <-. repeat constructor.
Qed.

Lemma fallback_day_ok t d date : destinations t <> [] -> exists items, get_fallback_day t d date = POk items.
Proof. unfold get_fallback_day. destruct (destinations t); [congruence|eexists; reflexivity]. Qed.

Lemma parse_single_day_labelled text t d date items :
  parse_single_day_response text t d date = POk items -> day_labelled d date items.
Proof.
  unfold parse_single_day_response.
  destruct (json_loads _) as [v|]; [|apply fallback_day_labelled].
  destruct (tag_decoded d date v) as [its|e] eqn:E; [|apply fallback_day_labelled].
  intros H. injection H as <-. unfold tag_decoded in E.
  destruct v; try discriminate.
  - destruct s; [injection E as <-; constructor|discriminate].
  - exact (tag_items_labelled _ _ _ _ _ E).
  - destruct kv; [injection E as <-; constructor|discriminate].
Qed.

End SingleDayFacts.

(* ================================================================== *)
(** * The claims of the specification *)

Module Claims.
Import Pipeline.

(** ** C10 *)

(** C10: an [update_job_status] on a known job id writes all six
    mutable fields at once (status, progress, message, result, error,
    updated_at) from its arguments, keeping nothing of the previous
    record but its ids and creation time; a call that leaves the optional
    arguments at their defaults stores progress 0 and no message, result
    or error, whatever the record held before. *)
Theorem update_overwrites_fields (jobs : Jobs) jid (j : Job) st prog msg res err now :
  JobService.get_job_status jobs jid = Some j ->
  JobService.get_job_status (JobService.update_job_status jobs jid st prog msg res err now) jid =
    Some (mkJob (job_id j) (trip_id j) (job_type j) st prog msg res err (created_at j) now) /\
  JobService.get_job_status (update_job_status_defaults jobs jid st now) jid =
    Some (mkJob (job_id j) (trip_id j) (job_type j) st 0 None None None (created_at j) now).
Proof.
  unfold JobService.get_job_status, update_job_status_defaults. intros Hj.
  split; apply RegistryFacts.update_lookup_same; exact Hj.
Qed.

Lemma update_overwrites_fields_witness :
  JobService.get_job_status jobs0 "job-1" = Some job0 /\
  JobService.get_job_status (JobService.update_job_status jobs0 "job-1" "processing" 40
                               None None None "t1") "job-1" =
    Some (mkJob "job-1" "trip-1" "itinerary_generation" "processing" 40 None None None "t0" "t1") /\
  JobService.get_job_status (update_job_status_defaults jobs0 "job-1" "processing" "t1") "job-1" =
    Some (mkJob "job-1" "trip-1" "itinerary_generation" "processing" 0 None None None "t0" "t1").
Proof.
  assert (Hj : JobService.get_job_status jobs0 "job-1" = Some job0) by reflexivity.
  split; [exact Hj|].
  exact (update_overwrites_fields jobs0 "job-1" job0 "processing" 40 None None None "t1" Hj).
Defined.

(** ** C5 *)

(** C5 (amended): the registry has no terminal-state guard.  An update of
    a known job writes the given status whatever the stored status is
    (completed and failed included), so a later [get] returns the status
    of the last update; an update of an unknown id leaves the registry
    unchanged; an update leaves every other job unchanged. *)
Theorem registry_last_write_wins (jobs : Jobs) jid jid' st prog msg res err now :
  (forall j, JobService.get_job_status jobs jid = Some j ->
     option_map status
       (JobService.get_job_status (JobService.update_job_status jobs jid st prog msg res err now) jid)
     = Some st) /\
  (JobService.get_job_status jobs jid = None ->
     JobService.update_job_status jobs jid st prog msg res err now = jobs) /\
  (jid' <> jid ->
     JobService.get_job_status (JobService.update_job_status jobs jid st prog msg res err now) jid'
     = JobService.get_job_status jobs jid').
Proof.
  unfold JobService.get_job_status. split; [|split].
  - intros j Hj. rewrite (RegistryFacts.update_lookup_same _ _ _ _ _ _ _ _ j Hj). reflexivity.
  - apply RegistryFacts.update_lookup_none.
  - apply RegistryFacts.update_lookup_other.
Qed.

Lemma registry_last_write_wins_witness :
  let jobs1 := JobService.update_job_status jobs0 "job-1" "completed" 100 None
                 (Some [("num_days", 3%Z)]) None "t1" in
  option_map status
    (JobService.get_job_status (JobService.update_job_status jobs1 "job-1" "processing" 10
                                  None None None "t2") "job-1") = Some "processing" /\
  JobService.update_job_status jobs1 "job-2" "failed" 0 None None (Some "x") "t2" = jobs1 /\
  JobService.get_job_status (JobService.update_job_status jobs1 "job-1" "processing" 10
                               None None None "t2") "job-2" =
  JobService.get_job_status jobs1 "job-2".
Proof.
  intros jobs1.
  destruct (registry_last_write_wins jobs1 "job-1" "job-2" "processing" 10 None None None "t2")
    as (H1 & _ & H3).
  destruct (registry_last_write_wins jobs1 "job-2" "job-1" "failed" 0 None None (Some "x") "t2")
    as (_ & H2 & _).
  split; [|split].
  - apply (H1 (mkJob "job-1" "trip-1" "itinerary_generation" "completed" 100 None
                 (Some [("num_days", 3%Z)]) None "t0" "t1")). vm_compute. reflexivity.
  - apply H2. vm_compute. reflexivity.
  - apply H3. discriminate.
Defined.

(** C5: a job set to [completed] and updated again reads back as
    [processing]: the terminal status does not stick. *)
Lemma cx_C5 :
  let jobs1 := JobService.update_job_status jobs0 "job-1" "completed" 100 None
                 (Some [("num_days", 3%Z)]) None "t1" in
  let jobs2 := JobService.update_job_status jobs1 "job-1" "processing" 10 None None None "t2" in
  option_map status (JobService.get_job_status jobs1 "job-1") = Some "completed" /\
  option_map status (JobService.get_job_status jobs2 "job-1") = Some "processing".
Proof. vm_compute. split; reflexivity. Qed.

(** ** C1 *)

(** C1 (amended): when the model call of the modification pipeline
    raises, or returns text whose parse raises, [modify_itinerary] returns
    the existing items unchanged; the pipeline then deletes the trip's
    items and inserts the same rows again, and the job ends [completed]
    with progress 100 and [items_count] the number of existing items. *)
Theorem modify_generation_failure_replaces jid tid now answer (t : Trip) (s : St) (j : Job) :
  JobService.get_job_status (jobs s) jid = Some j ->
  (exists e, answer = Raised e) \/
  (exists c e, answer = Returned c /\
               ItineraryAgent.parse_itinerary_response c (JStr (fmt_date (trip_start t))) = PExc e) ->
  let existing := map snd (filter (fun '(t', _) => String.eqb t' tid) (db s)) in
  let s' := snd (modify_itinerary_async jid tid now answer None None (Some t) s) in
  store_log s' = (store_log s ++ [EvDelete tid; EvInsert tid (map (to_db_row tid) existing)])%list /\
  db s' = (filter (fun '(t', _) => negb (String.eqb t' tid)) (db s) ++
           map (fun r => (tid, r)) (map (to_db_row tid) existing))%list /\
  JobService.get_job_status (jobs s') jid =
    Some (mkJob (job_id j) (trip_id j) (job_type j) "completed" 100
                (Some "Itinerary modified successfully")
                (Some [("items_count", Z.of_nat (length existing))]) None (created_at j) now).
Proof.
  intros Hj Ha existing s'. subst s'. unfold JobService.get_job_status in *.
  assert (Hm : ItineraryAgent.modify_itinerary existing t answer = existing).
  { destruct Ha as [[e ->]|(c & e & -> & Hp)]; [reflexivity|].
    unfold ItineraryAgent.modify_itinerary. rewrite Hp. reflexivity. }
  unfold modify_itinerary_async, modify_itinerary_body, try_except, bind. simpl. fold existing. rewrite Hm. simpl.
  rewrite <- !app_assoc. split; [reflexivity|]. split; [reflexivity|].
  TraceFacts.solve_lookup.
Qed.

Lemma modify_generation_failure_replaces_witness :
  JobService.get_job_status (jobs st0) "job-1" = Some job0 /\
  let s' := snd (modify_itinerary_async "job-1" "trip-1" "t1" (Raised "timeout") None None
                   (Some (trip_of ["Tokyo, Japan"] 3)) st0) in
  store_log s' = [EvDelete "trip-1"; EvInsert "trip-1" []] /\
  db s' = [] /\
  JobService.get_job_status (jobs s') "job-1" =
    Some (mkJob "job-1" "trip-1" "itinerary_generation" "completed" 100
                (Some "Itinerary modified successfully") (Some [("items_count", 0%Z)]) None "t0" "t1").
Proof.
  assert (Hj : JobService.get_job_status (jobs st0) "job-1" = Some job0) by reflexivity.
  split; [exact Hj|].
  exact (modify_generation_failure_replaces "job-1" "trip-1" "t1" (Raised "timeout")
           (trip_of ["Tokyo, Japan"] 3) st0 job0 Hj (or_introl (ex_intro _ "timeout" eq_refl))).
Defined.

(** C1: with no existing items and a failing model call, the job ends
    [completed] and the delete step runs. *)
Lemma cx_C1 :
  let s' := snd (modify_itinerary_async "job-1" "trip-1" "t1" (Raised "timeout") None None
                   (Some (trip_of ["Tokyo, Japan"] 3)) st0) in
  option_map status (JobService.get_job_status (jobs s') "job-1") = Some "completed" /\
  store_log s' = [EvDelete "trip-1"; EvInsert "trip-1" []].
Proof. vm_compute. split; reflexivity. Qed.

(** ** C2 *)

(** C2 (amended): when the trip has a first destination, every per-day
    model call raises and no save fails, the day-by-day pipeline ends
    [completed] with progress 100, and for each day d in 1..N exactly one
    row is saved: the fallback item "Explore {first destination}" of day
    d.  (A call that returns an empty JSON list gives that day no item.) *)
Theorem generate_all_calls_fail jid tid now answer (t : Trip) dest rest (s : St) (j : Job) :
  destinations t = dest :: rest ->
  (forall d sm, exists e, answer d sm = Raised e) ->
  JobService.get_job_status (jobs s) jid = Some j ->
  let N := (days_between (trip_start t) (trip_end t) + 1)%Z in
  let s' := snd (generate_itinerary_async jid tid now answer (fun _ => None) (Some t) s) in
  JobService.get_job_status (jobs s') jid =
    Some (mkJob (job_id j) (trip_id j) (job_type j) "completed" 100
                (Some ("Generated " ++ str_of_Z N ++ "-day itinerary"))
                (Some [("num_days", N)]) None (created_at j) now) /\
  db s' = (db s ++ map (fun d => (tid, to_db_row tid (ItineraryAgent.fallback_item dest d
                  (fmt_date (add_days (trip_start t) (Z.of_nat d - 1))))))
                (seq 1 (Z.to_nat N)))%list.
Proof.
  intros Hd Hr Hj N s'. subst s'. unfold JobService.get_job_status in *.
  unfold generate_itinerary_async, generate_itinerary_body, try_except, bind. simpl.
  match goal with |- context [day_loop ?a ?b ?c ?d ?e ?f ?g ?h ?i ?k ?st] =>
    destruct (TraceFacts.day_loop_fallback a b c d f dest rest g Hd Hr h i k st
               (mkJob (job_id j) (trip_id j) (job_type j) "processing" 5
                      (Some "Fetching trip details") None None (created_at j) now))
      as (s1 & E & Hdb & j1 & Hj1 & (H1 & H2 & H3 & H4)) end.
  - simpl. rewrite (RegistryFacts.update_lookup_same _ _ _ _ _ _ _ _ _ Hj). reflexivity.
  - rewrite E. simpl. rewrite (RegistryFacts.update_lookup_same _ _ _ _ _ _ _ _ _ Hj1).
    simpl in H1, H2, H3, H4. rewrite H1, H2, H3, H4. split; [reflexivity|]. exact Hdb.
Qed.

Lemma generate_all_calls_fail_witness :
  destinations (trip_of ["Tokyo, Japan"] 3) = ["Tokyo, Japan"] /\
  JobService.get_job_status (jobs st0) "job-1" = Some job0 /\
  let s' := snd (generate_itinerary_async "job-1" "trip-1" "t1" (fun _ _ => Raised "timeout")
                   (fun _ => None) (Some (trip_of ["Tokyo, Japan"] 3)) st0) in
  JobService.get_job_status (jobs s') "job-1" =
    Some (mkJob "job-1" "trip-1" "itinerary_generation" "completed" 100
                (Some ("Generated " ++ str_of_Z 3 ++ "-day itinerary"))
                (Some [("num_days", 3%Z)]) None "t0" "t1") /\
  length (db s') = 3%nat.
Proof.
  assert (Hj : JobService.get_job_status (jobs st0) "job-1" = Some job0) by reflexivity.
  split; [reflexivity|]. split; [exact Hj|].
  destruct (generate_all_calls_fail "job-1" "trip-1" "t1" (fun _ _ => Raised "timeout")
              (trip_of ["Tokyo, Japan"] 3) "Tokyo, Japan" [] st0 job0 eq_refl
              (fun _ _ => ex_intro _ "timeout" eq_refl) Hj) as [H1 H2].
  split; [exact H1|]. rewrite H2. reflexivity.
Defined.

(** C2: a model answer of [[]] for the only day of a one-day trip leaves
    the job [completed] with no item saved. *)
Lemma cx_C2 :
  let s' := snd (generate_itinerary_async "job-1" "trip-1" "t1" (fun _ _ => Returned "[]")
                   (fun _ => None) (Some (trip_of ["Tokyo, Japan"] 1)) st0) in
  option_map status (JobService.get_job_status (jobs s') "job-1") = Some "completed" /\
  db s' = [].
Proof. vm_compute. split; reflexivity. Qed.

(** ** C3 *)

(** C3 (amended): the updates of a day-by-day run are exactly: 5, then
    for each day d of 1..N the values [progress_before N d] = 10 +
    (d-1)*(80//N) and [progress_after N d] = 10 + d*(80//N), then 100
    (a run that fails stops after a prefix of the day updates and writes
    failed with 0).  The progress values of a completed run are that list
    [progress_values N], which for N >= 1 is non-decreasing and within
    [0, 100].  The after-day value is 10 + d*(80//N), not 10 + d*80//N. *)
Theorem generate_progress_trace jid tid now answer save_fail t s r s' :
  generate_itinerary_async jid tid now answer save_fail (Some t) s = (r, s') ->
  let N := (days_between (trip_start t) (trip_end t) + 1)%Z in
  ((trace s' = (trace s ++ [(jid, "processing", 5%Z)] ++ day_updates jid N 1 (Z.to_nat N) ++
                [(jid, "completed", 100%Z)])%list /\
    trace_progress ([(jid, "processing", 5%Z)] ++ day_updates jid N 1 (Z.to_nat N) ++
                    [(jid, "completed", 100%Z)])%list = progress_values N) \/
   exists pre rest, day_updates jid N 1 (Z.to_nat N) = (pre ++ rest)%list /\
     trace s' = (trace s ++ [(jid, "processing", 5%Z)] ++ pre ++ [(jid, "failed", 0%Z)])%list) /\
  ((1 <= N)%Z -> Sorted Z.le (progress_values N) /\
                 Forall (fun x => 0 <= x <= 100)%Z (progress_values N)).
Proof.
  intros H N. split.
  - destruct (TraceFacts.generate_trace _ _ _ _ _ _ _ _ _ H) as [Ht|Ht]; [left|right; exact Ht].
    split; [exact Ht|].
    unfold trace_progress, progress_values, day_updates. rewrite !map_app. simpl. f_equal.
    f_equal. generalize 1%nat. induction (Z.to_nat N) as [|k IH]; intros day; [reflexivity|].
    simpl. rewrite IH. reflexivity.
  - apply TraceFacts.progress_values_ok.
Qed.

Lemma generate_progress_trace_witness :
  exists r s', generate_itinerary_async "job-1" "trip-1" "t1" (fun _ _ => Raised "timeout")
                 (fun _ => None) (Some (trip_of ["Tokyo, Japan"] 3)) st0 = (r, s') /\
  trace s' = ([("job-1", "processing", 5%Z)] ++ day_updates "job-1" 3 1 3 ++
              [("job-1", "completed", 100%Z)])%list /\
  progress_values 3 = [5; 10; 36; 36; 62; 62; 88; 100]%Z.
Proof.
  destruct (generate_itinerary_async "job-1" "trip-1" "t1" (fun _ _ => Raised "timeout")
              (fun _ => None) (Some (trip_of ["Tokyo, Japan"] 3)) st0) as [r s'] eqn:E.
  exists r, s'. split; [reflexivity|].
  destruct (generate_progress_trace "job-1" "trip-1" "t1" (fun _ _ => Raised "timeout")
              (fun _ => None) (trip_of ["Tokyo, Japan"] 3) st0 r s' E)
    as [[[Ht _]|(pre & rest & _ & Ht)] _].
  - split; [exact Ht|]. vm_compute. reflexivity.
  - exfalso. vm_compute in E. injection E as _ Hs. subst s'.
    apply (f_equal (fun l => List.last l ("job-1", "processing", 0%Z))) in Ht.
    rewrite !app_assoc, last_last in Ht. vm_compute in Ht. discriminate.
Defined.

(** C3: for a 3-day trip the value written after day 2 is 62 =
    10 + 2*(80//3), while 10 + 2*80//3 = 63. *)
Lemma cx_C3 :
  let s' := snd (generate_itinerary_async "job-1" "trip-1" "t1" (fun _ _ => Raised "timeout")
                   (fun _ => None) (Some (trip_of ["Tokyo, Japan"] 3)) st0) in
  nth_error (trace s') 4 = Some ("job-1", "processing", 62%Z) /\
  (10 + 2 * 80 / 3 = 63)%Z.
Proof. vm_compute. split; reflexivity. Qed.

(** ** C4 *)

(** C4 (amended): in each of the three pipelines, a job that the run
    leaves [failed] has progress 0 (the failure update resets it), the
    handler's message, and the error [Some e] where [e] is the text of the
    exception the [try:] block raised (which may be empty). *)
Theorem failed_job_progress_zero :
  (forall jid tid now answer save_fail trip s r s' j,
     generate_itinerary_async jid tid now answer save_fail trip s = (r, s') ->
     JobService.get_job_status (jobs s') jid = Some j -> status j = "failed" ->
     progress j = 0%Z /\ message j = Some "Failed to generate itinerary" /\
     exists e, error j = Some e /\
       exists s1, generate_itinerary_body jid tid now answer save_fail trip s = (PExc e, s1)) /\
  (forall jid tid now answer delete_fail insert_fail trip s r s' j,
     modify_itinerary_async jid tid now answer delete_fail insert_fail trip s = (r, s') ->
     JobService.get_job_status (jobs s') jid = Some j -> status j = "failed" ->
     progress j = 0%Z /\ message j = Some "Failed to modify itinerary" /\
     exists e, error j = Some e /\
       exists s1, modify_itinerary_body jid tid now answer delete_fail insert_fail trip s = (PExc e, s1)) /\
  (forall jid tid now visa vaccine answer save_fail trip s r s' j,
     TaskPipeline.generate_tasks_async jid tid now visa vaccine answer save_fail trip s = (r, s') ->
     JobService.get_job_status (jobs s') jid = Some j -> status j = "failed" ->
     progress j = 0%Z /\ message j = Some "Failed to generate tasks" /\
     exists e, error j = Some e /\
       exists s1, TaskPipeline.generate_tasks_body jid tid now visa vaccine answer save_fail trip s
                  = (PExc e, s1)).
Proof.
  split; [|split]; intros until j; intros H Hj Hst;
    [unfold generate_itinerary_async in H | unfold modify_itinerary_async in H
    | unfold TaskPipeline.generate_tasks_async in H];
    (eapply PipelineFacts.failed_record in H as (Hp & Hm & _ & He);
       [ split; [exact Hp|]; split; [exact Hm|]; exact He
       | | exact Hj | exact Hst ]);
    [ apply PipelineFacts.generate_body_ends_in
    | unfold modify_itinerary_body; PipelineFacts.ends_in_tac
    | unfold TaskPipeline.generate_tasks_body; PipelineFacts.ends_in_tac ].
Qed.

Lemma failed_job_progress_zero_witness :
  (exists r s' j, generate_itinerary_async "job-1" "trip-1" "t1" (fun _ _ => Raised "timeout")
                    (fun _ => None) (Some (trip_of [] 2)) st0 = (r, s') /\
     JobService.get_job_status (jobs s') "job-1" = Some j /\ status j = "failed" /\
     progress j = 0%Z /\
     exists s1, generate_itinerary_body "job-1" "trip-1" "t1" (fun _ _ => Raised "timeout")
                  (fun _ => None) (Some (trip_of [] 2)) st0 = (PExc "list index out of range", s1)) /\
  (exists r s' j, TaskPipeline.generate_tasks_async "job-1" "trip-1" "t1" [] [] (Raised "timeout")
                    None None st0 = (r, s') /\
     JobService.get_job_status (jobs s') "job-1" = Some j /\ status j = "failed" /\
     progress j = 0%Z /\
     exists s1, TaskPipeline.generate_tasks_body "job-1" "trip-1" "t1" [] [] (Raised "timeout")
                  None None st0 = (PExc "Trip trip-1 not found", s1)).
Proof.
  destruct failed_job_progress_zero as (Hg & _ & Ht). split.
  - destruct (generate_itinerary_async "job-1" "trip-1" "t1" (fun _ _ => Raised "timeout")
                (fun _ => None) (Some (trip_of [] 2)) st0) as [r s'] eqn:E.
    assert (Hj : JobService.get_job_status (jobs s') "job-1" =
                 Some (mkJob "job-1" "trip-1" "itinerary_generation" "failed" 0
                        (Some "Failed to generate itinerary") None (Some "list index out of range")
                        "t0" "t1"))
      by (vm_compute in E; injection E as _ <-; reflexivity).
    exists r, s', (mkJob "job-1" "trip-1" "itinerary_generation" "failed" 0
                     (Some "Failed to generate itinerary") None (Some "list index out of range")
                     "t0" "t1").
    split; [reflexivity|]. split; [exact Hj|]. split; [reflexivity|].
    destruct (Hg _ _ _ _ _ _ _ _ _ _ E Hj eq_refl) as (Hp & _ & e & He & s1 & Hb).
    simpl in He. injection He as <-. split; [exact Hp | exists s1; exact Hb].
  - destruct (TaskPipeline.generate_tasks_async "job-1" "trip-1" "t1" [] [] (Raised "timeout")
                None None st0) as [r s'] eqn:E.
    assert (Hj : JobService.get_job_status (jobs s') "job-1" =
                 Some (mkJob "job-1" "trip-1" "itinerary_generation" "failed" 0
                        (Some "Failed to generate tasks") None (Some "Trip trip-1 not found")
                        "t0" "t1"))
      by (vm_compute in E; injection E as _ <-; reflexivity).
    exists r, s', (mkJob "job-1" "trip-1" "itinerary_generation" "failed" 0
                     (Some "Failed to generate tasks") None (Some "Trip trip-1 not found")
                     "t0" "t1").
    split; [reflexivity|]. split; [exact Hj|]. split; [reflexivity|].
    destruct (Ht _ _ _ _ _ _ _ _ _ _ _ _ E Hj eq_refl) as (Hp & _ & e & He & s1 & Hb).
    simpl in He. injection He as <-. split; [exact Hp | exists s1; exact Hb].
Defined.

(** C4: a two-day trip with no destination fails after progress 10 was
    written; the failed record has progress 0. *)
Lemma cx_C4 :
  let s' := snd (generate_itinerary_async "job-1" "trip-1" "t1" (fun _ _ => Raised "timeout")
                   (fun _ => None) (Some (trip_of [] 2)) st0) in
  trace s' = [("job-1", "processing", 5%Z); ("job-1", "processing", 10%Z);
              ("job-1", "failed", 0%Z)] /\
  option_map progress (JobService.get_job_status (jobs s') "job-1") = Some 0%Z.
Proof. vm_compute. split; reflexivity. Qed.


(** ** C7 *)

(** The fallback branch of [merge_tasks] as visa ++ health ++ fallback. *)
Lemma merge_fallback_app (visa vaccine fb : list Item) :
  (match (visa ++ vaccine)%list with
   | [] => fb
   | _ :: _ => ((visa ++ vaccine) ++ fb)%list
   end) = (visa ++ vaccine ++ fb)%list.
Proof.
  destruct (visa ++ vaccine)%list eqn:E.
  - apply app_eq_nil in E as [-> ->]. reflexivity.
  - rewrite <- E, <- app_assoc. reflexivity.
Qed.

(** C7 (amended): the merged list is the visa tasks, then the health
    tasks, then a list G of general tasks.  G is either the fallback task
    list, or a sublist of the parsed general tasks; with at least one visa
    task, every task of G has a category whose lower case is not "visa";
    with at least one health task, no task of G has category "health" and
    a title that mentions a vaccine.  G is the fallback list when the
    general generation raises, and also when the filtering itself raises
    (a general task with a non-string category or title), in which case
    the parsed general tasks are dropped. *)
Theorem merge_tasks_shape visa vaccine general dests :
  exists G,
    TaskAgent.merge_tasks visa vaccine general dests = (visa ++ vaccine ++ G)%list /\
    (G = TaskAgent.get_fallback_tasks dests \/ exists gl, general = POk gl /\ G `sublist_of` gl) /\
    (visa <> [] -> forall t, In t G ->
       exists c, TaskAgent.lower_of (jget t "category" (JStr "")) = POk c /\ c <> "visa") /\
    (vaccine <> [] -> forall t, In t G ->
       TaskAgent.lower_of (jget t "category" (JStr "")) = POk "health" ->
       TaskAgent.mentions_vaccine (jget t "title" (JStr "")) = POk false) /\
    (forall e, general = PExc e -> G = TaskAgent.get_fallback_tasks dests) /\
    (forall gl e, general = POk gl -> visa <> [] -> TaskAgent.drop_visa gl = PExc e ->
       G = TaskAgent.get_fallback_tasks dests) /\
    (forall gl g1 e, general = POk gl -> vaccine <> [] ->
       (visa = [] /\ g1 = gl \/ visa <> [] /\ TaskAgent.drop_visa gl = POk g1) ->
       TaskAgent.drop_vaccine g1 = PExc e -> G = TaskAgent.get_fallback_tasks dests).
Proof.
  destruct (TaskFacts.fallback_tasks_ok dests) as [Fv Fh].
  assert (Hfb : exists G, (match (visa ++ vaccine)%list with
                           | [] => TaskAgent.get_fallback_tasks dests
                           | _ :: _ => ((visa ++ vaccine) ++ TaskAgent.get_fallback_tasks dests)%list
                           end) = (visa ++ vaccine ++ G)%list /\
                          (G = TaskAgent.get_fallback_tasks dests \/
                           exists gl, general = POk gl /\ G `sublist_of` gl) /\
                          (visa <> [] -> forall t, In t G -> exists c,
                             TaskAgent.lower_of (jget t "category" (JStr "")) = POk c /\ c <> "visa") /\
                          (vaccine <> [] -> forall t, In t G ->
                             TaskAgent.lower_of (jget t "category" (JStr "")) = POk "health" ->
                             TaskAgent.mentions_vaccine (jget t "title" (JStr "")) = POk false) /\
                          (forall e, general = PExc e -> G = TaskAgent.get_fallback_tasks dests) /\
                          (forall gl e, general = POk gl -> visa <> [] -> TaskAgent.drop_visa gl = PExc e ->
                             G = TaskAgent.get_fallback_tasks dests) /\
                          (forall gl g1 e, general = POk gl -> vaccine <> [] ->
                             (visa = [] /\ g1 = gl \/ visa <> [] /\ TaskAgent.drop_visa gl = POk g1) ->
                             TaskAgent.drop_vaccine g1 = PExc e -> G = TaskAgent.get_fallback_tasks dests)).
  { exists (TaskAgent.get_fallback_tasks dests).
    split; [apply merge_fallback_app|].
    split; [left; reflexivity|]. split; [intros _; assumption|]. split; [intros _; assumption|].
    repeat split; intros; reflexivity. }
  unfold TaskAgent.merge_tasks. destruct general as [gl|e]; [|exact Hfb].
  destruct visa as [|v vs] eqn:Ev.
  - destruct vaccine as [|w ws] eqn:Ew.
    + exists gl. split; [reflexivity|]. split; [right; exists gl; split; reflexivity|].
      split; [intros Hn; congruence|]. split; [intros Hn; congruence|].
      split; [intros e' He'; discriminate|].
      split; intros; congruence.
    + destruct (TaskAgent.drop_vaccine gl) as [g|e] eqn:Ed; [|exact Hfb].
      destruct (TaskFacts.drop_vaccine_ok gl g Ed) as [Hs Hh].
      exists g. split; [reflexivity|]. split; [right; exists gl; split; [reflexivity|exact Hs]|].
      split; [intros Hn; congruence|]. split; [intros _; exact Hh|].
      split; [intros e' He'; discriminate|]. split; [intros; congruence|].
      intros gl' g1 e' Hg _ [[_ ->] | [Hn _]] He'; [|congruence].
      injection Hg as <-. congruence.
  - destruct (TaskAgent.drop_visa gl) as [g1|e] eqn:Ed1; [|exact Hfb].
    destruct (TaskFacts.drop_visa_ok gl g1 Ed1) as [Hs1 Hv1].
    destruct vaccine as [|w ws] eqn:Ew.
    + exists g1. split; [reflexivity|]. split; [right; exists gl; split; [reflexivity|exact Hs1]|].
      split; [intros _; exact Hv1|]. split; [intros Hn; congruence|].
      split; [intros e' He'; discriminate|].
      split; [|intros; congruence].
      intros gl' e' Hg _ He'. injection Hg as <-. congruence.
    + destruct (TaskAgent.drop_vaccine g1) as [g|e] eqn:Ed; [|exact Hfb].
      destruct (TaskFacts.drop_vaccine_ok g1 g Ed) as [Hs Hh].
      exists g. split; [reflexivity|].
      split; [right; exists gl; split; [reflexivity|etransitivity; eassumption]|].
      split.
      { intros _ t Ht. apply Hv1. apply list_elem_of_In. apply (sublist_subseteq g g1 Hs).
        apply list_elem_of_In. exact Ht. }
      split; [intros _; exact Hh|].
      split; [intros e' He'; discriminate|].
      split.
      { intros gl' e' Hg _ He'. injection Hg as <-. congruence. }
      intros gl' g1' e' Hg _ [[Hn _] | [_ Hd]] He'; [congruence|].
      injection Hg as <-. rewrite Ed1 in Hd. injection Hd as <-. congruence.
Qed.

Lemma merge_tasks_shape_witness :
  (exists G,
    TaskAgent.merge_tasks [visa_task] [] (POk [visa_task]) ["Tokyo, Japan"] = ([visa_task] ++ G)%list /\
    forall t, In t G ->
      exists c, TaskAgent.lower_of (jget t "category" (JStr "")) = POk c /\ c <> "visa") /\
  TaskAgent.merge_tasks [visa_task] [] (POk [[("category", JNull)]]) ["Tokyo, Japan"]
  = ([visa_task] ++ TaskAgent.get_fallback_tasks ["Tokyo, Japan"])%list /\
  TaskAgent.merge_tasks [] [visa_task] (POk [[("category", JStr "health"); ("title", JNull)]])
    ["Tokyo, Japan"]
  = ([visa_task] ++ TaskAgent.get_fallback_tasks ["Tokyo, Japan"])%list /\
  TaskAgent.merge_tasks [visa_task] [] (PExc "timeout") ["Tokyo, Japan"]
  = ([visa_task] ++ TaskAgent.get_fallback_tasks ["Tokyo, Japan"])%list.
Proof.
  split; [|split; [|split]].
  - destruct (merge_tasks_shape [visa_task] [] (POk [visa_task]) ["Tokyo, Japan"])
      as (G & Hm & _ & Hv & _).
    exists G. split; [exact Hm|]. apply Hv. discriminate.
  - destruct (merge_tasks_shape [visa_task] [] (POk [[("category", JNull)]]) ["Tokyo, Japan"])
      as (G & Hm & _ & _ & _ & _ & Hv & _).
    rewrite Hm, (Hv _ "object has no attribute 'lower'" eq_refl); [reflexivity|discriminate|reflexivity].
  - destruct (merge_tasks_shape [] [visa_task] (POk [[("category", JStr "health"); ("title", JNull)]])
                ["Tokyo, Japan"]) as (G & Hm & _ & _ & _ & _ & _ & Hw).
    rewrite Hm, (Hw _ [[("category", JStr "health"); ("title", JNull)]]
                   "object has no attribute 'lower'" eq_refl);
      [reflexivity|discriminate|left; split; reflexivity|reflexivity].
  - destruct (merge_tasks_shape [visa_task] [] (PExc "timeout") ["Tokyo, Japan"])
      as (G & Hm & _ & _ & _ & Hg & _).
    rewrite Hm, (Hg "timeout" eq_refl). reflexivity.
Defined.

(** C7: a general task whose category is JSON null, next to a visa task:
    the category filter raises, the general tasks are replaced by the
    fallback list, and the general task is not in the merged list. *)
Lemma cx_C7 :
  TaskAgent.generate_tasks [visa_task] [] (Returned null_category_answer) ["Tokyo, Japan"]
  = ([visa_task] ++ TaskAgent.get_fallback_tasks ["Tokyo, Japan"])%list /\
  TaskAgent.parse_task_response null_category_answer
  = POk [[("title", JStr "Pack adapters"); ("description", JNull); ("category", JNull);
          ("priority", JStr "medium"); ("completed", JBool false)]].
Proof. vm_compute. split; reflexivity. Qed.

(** ** C8 *)

(** C8 (amended): [_parse_itinerary_response] strips a ```json fence:
    for a text [t] without backticks and whitespace [pre], [post], the
    fenced text parses as [t] itself.  It has no bracket-slice retry: a
    backtick-free text whose first non-blank character is a letter other
    than t, f, n, I, N (prose before the JSON) raises JSONDecodeError,
    whatever JSON follows. *)
Theorem itinerary_fence_and_prose :
  (forall pre t post sd, PyStr.contains backtick t = false ->
     all_space pre = true -> all_space post = true ->
     ItineraryAgent.parse_itinerary_response ("```json" ++ pre ++ t ++ post ++ "```") sd
     = ItineraryAgent.parse_itinerary_response t sd) /\
  (forall text c rest sd, PyStr.contains backtick text = false ->
     PyStr.strip text = String c rest ->
     is_ascii_letter c = true ->
     negb (existsb (Ascii.eqb c) ["t"; "f"; "n"; "I"; "N"]%char) = true ->
     ItineraryAgent.parse_itinerary_response text sd = PExc "JSONDecodeError").
Proof.
  split.
  - intros pre t post sd Ht Hpre Hpost. unfold ItineraryAgent.parse_itinerary_response.
    rewrite ExtractFacts.fenced_clean by assumption.
    rewrite ExtractFacts.clean_fences_plain by exact Ht. reflexivity.
  - exact ExtractFacts.prose_fails.
Qed.

Lemma itinerary_fence_and_prose_witness :
  ItineraryAgent.parse_itinerary_response ("```json" ++ nl ++ one_item_json ++ nl ++ "```") JNull
  = ItineraryAgent.parse_itinerary_response one_item_json JNull /\
  ItineraryAgent.parse_itinerary_response ("Here is the plan: " ++ one_item_json) JNull
  = PExc "JSONDecodeError".
Proof.
  split.
  - apply (proj1 itinerary_fence_and_prose); reflexivity.
  - apply ((proj2 itinerary_fence_and_prose) ("Here is the plan: " ++ one_item_json)
             "H"%char ("ere is the plan: " ++ one_item_json)); reflexivity.
Defined.

(** C8: the same one-item list parses, bare and fenced, to one item, and
    raises JSONDecodeError inside prose. *)
Lemma cx_C8 :
  ItineraryAgent.parse_itinerary_response one_item_json JNull
  = POk [[("day_number", JNum "1"); ("date", JNull); ("start_time", JStr "09:00:00");
          ("end_time", JStr "10:00:00"); ("title", JStr "Senso-ji");
          ("description", JStr EmptyString); ("location", JStr EmptyString);
          ("type", JStr "activity"); ("cost", JNum "0"); ("order_index", JNum "0")]] /\
  ItineraryAgent.parse_itinerary_response ("```json" ++ nl ++ one_item_json ++ nl ++ "```") JNull
  = ItineraryAgent.parse_itinerary_response one_item_json JNull /\
  ItineraryAgent.parse_itinerary_response ("Here is the plan: " ++ one_item_json) JNull
  = PExc "JSONDecodeError".
Proof. vm_compute. split; [|split]; reflexivity. Qed.

(** ** C6 *)




(** ** C9 *)

(** C9: every task of [_create_tasks_from_research] is the task of a
    vaccine keyword v for which some window "\b v \b" plus the rest of
    its line (at most 200 characters) of the lower-cased text holds a
    mandatory word (required, mandatory, must, compulsory, obligatory);
    and a keyword none of whose windows holds such a word gets no task. *)
Theorem vaccine_tasks_required_only text dests :
  (forall t, In t (VaccineAgent.create_tasks_from_research text dests) ->
     exists v ctx ds, In v VaccineAgent.vaccine_keywords /\
       t = VaccineAgent.create_vaccine_task v ctx ds /\
       exists k w, VaccineAgent.window_at (list_ascii_of_string (PyStr.lower text))
                     (list_ascii_of_string (PyStr.lower v)) k = Some w /\
                   has_mandatory w = true) /\
  (forall v, In v VaccineAgent.vaccine_keywords ->
     (forall k w, VaccineAgent.window_at (list_ascii_of_string (PyStr.lower text))
                    (list_ascii_of_string (PyStr.lower v)) k = Some w ->
                  has_mandatory w = false) ->
     forall t, In t (VaccineAgent.create_tasks_from_research text dests) ->
     hd_error t <> Some ("title", JStr (VaccineAgent.vaccine_title v))).
Proof.

  split.
  - intros t Ht. apply VaccineFacts.tasks_inv in Ht as (v & ctx & ds & Hv & Hr & ->).
    exists v, ctx, ds. split; [exact Hv|]. split; [reflexivity|].
    apply VaccineFacts.required_window, Hr.
  - intros v Hv Hno t Ht Hhd.
    apply VaccineFacts.tasks_inv in Ht as (v' & ctx & ds & Hv' & Hr & ->).
    unfold VaccineAgent.create_vaccine_task in Hhd. cbn [hd_error] in Hhd.
    assert (Htit : VaccineAgent.vaccine_title v' = VaccineAgent.vaccine_title v) by congruence.
    pose proof VaccineFacts.vaccine_title_inj as Hinj.
    eapply List.Forall_forall in Hinj; [|exact Hv'].
    eapply List.Forall_forall in Hinj; [|exact Hv].
    rewrite Htit, String.eqb_refl in Hinj. symmetry in Hinj. apply String.eqb_eq in Hinj.
    subst v'. apply VaccineFacts.required_window in Hr as (k & w & Hw & Hm).
    rewrite (Hno k w Hw) in Hm. discriminate.
Qed.

Lemma vaccine_tasks_required_only_witness :
  (exists v ctx ds, In v VaccineAgent.vaccine_keywords /\
     hd [] (VaccineAgent.create_tasks_from_research vaccine_text ["Ghana"])
     = VaccineAgent.create_vaccine_task v ctx ds /\
     exists k w, VaccineAgent.window_at (list_ascii_of_string (PyStr.lower vaccine_text))
                   (list_ascii_of_string (PyStr.lower v)) k = Some w /\
                 has_mandatory w = true) /\
  (forall t, In t (VaccineAgent.create_tasks_from_research vaccine_text ["Ghana"]) ->
     hd_error t <> Some ("title", JStr (VaccineAgent.vaccine_title "Rabies"))).
Proof.
  split.
  - apply (proj1 (vaccine_tasks_required_only vaccine_text ["Ghana"])). vm_compute. left. reflexivity.
  - apply (proj2 (vaccine_tasks_required_only vaccine_text ["Ghana"]) "Rabies").
    + simpl. tauto.
    + apply VaccineFacts.no_mandatory_windows; [discriminate|]. vm_compute. reflexivity.
Defined.

End Claims.

(* ================================================================== *)
(** * Further properties of the code *)

Module ExtrasJobs.
Import JobRoutes Pipeline InvFacts.

(** X1: right after [create_job], both status endpoints answer with the
    new record: status pending, progress 0, message "Job created". *)
Theorem status_after_create (js : Jobs) jid tid jt now verr :
  let j := mkJob jid tid jt "pending" 0 (Some "Job created") None None now now in
  itinerary_status (JobService.create_job js jid tid jt now) jid = HOk j /\
  task_status verr (JobService.create_job js jid tid jt now) jid = HOk j.
Proof.
  unfold itinerary_status, task_status, JobService.get_job_status, JobService.create_job.
  rewrite lookup_insert_eq. split; reflexivity.
Qed.

(** X2: each background pipeline keeps every progress of the registry
    in [0, 100], whatever the model answers and whatever fails. *)
Theorem pipelines_keep_progress s r s' :
  progress_ok (jobs s) ->
  (forall jid tid now answer save_fail trip,
     generate_itinerary_async jid tid now answer save_fail trip s = (r, s') ->
     progress_ok (jobs s')) /\
  (forall jid tid now answer df inf trip,
     modify_itinerary_async jid tid now answer df inf trip s = (r, s') ->
     progress_ok (jobs s')) /\
  (forall jid tid now visa vac answer save_fail trip,
     TaskPipeline.generate_tasks_async jid tid now visa vac answer save_fail trip s = (r, s') ->
     progress_ok (jobs s')).
Proof.
  intros H. split; [|split]; intros * E.
  - exact (generate_prog _ _ _ _ _ _ _ _ _ E H).
  - exact (modify_prog _ _ _ _ _ _ _ _ _ _ E H).
  - exact (tasks_prog _ _ _ _ _ _ _ _ _ _ _ E H).
Qed.

Lemma pipelines_keep_progress_witness :
  progress_ok (jobs st0) /\
  progress_ok (jobs (snd (generate_itinerary_async "job-1" "trip-1" "t1" (fun _ _ => Raised "timeout")
                           (fun _ => None) (Some (trip_of ["Tokyo, Japan"] 3)) st0))).
Proof.
  assert (H0 : progress_ok (jobs st0)) by (apply create_progress_ok, map_Forall_empty).
  split; [exact H0|].
  destruct (generate_itinerary_async "job-1" "trip-1" "t1" (fun _ _ => Raised "timeout")
              (fun _ => None) (Some (trip_of ["Tokyo, Japan"] 3)) st0) as [r s'] eqn:E.
  exact (proj1 (ExtrasJobs.pipelines_keep_progress st0 r s' H0) _ _ _ _ _ _ E).
Defined.

(** X3: on a registry whose progresses lie in [0, 100] (every registry
    built by [create_job] and the pipelines), the status endpoints answer
    404 for an unknown id and the record otherwise; they never answer 500. *)
Theorem status_404_or_record (js : Jobs) jid verr :
  progress_ok js ->
  (js !! jid = None ->
     itinerary_status js jid = HErr 404 ("Job " ++ jid ++ " not found") /\
     task_status verr js jid = HErr 404 "Job not found") /\
  (forall j, js !! jid = Some j -> itinerary_status js jid = HOk j /\ task_status verr js jid = HOk j).
Proof.
  intros H. unfold itinerary_status, task_status, JobService.get_job_status. split.
  - intros ->. split; reflexivity.
  - intros j Hj. rewrite Hj. pose proof (H jid j Hj) as [H0 H1].
    unfold job_status_response.
    replace ((0 <=? progress j) && (progress j <=? 100))%Z with true
      by (symmetry; apply andb_true_intro; split; apply Z.leb_le; lia).
    split; reflexivity.
Qed.

Lemma status_404_or_record_witness :
  progress_ok jobs0 /\
  itinerary_status jobs0 "job-2" = HErr 404 ("Job " ++ "job-2" ++ " not found") /\
  task_status "" jobs0 "job-1" = HOk job0.
Proof.
  assert (H0 : progress_ok jobs0) by (apply create_progress_ok, map_Forall_empty).
  split; [exact H0|]. split.
  - exact (proj1 (proj1 (ExtrasJobs.status_404_or_record jobs0 "job-2" "" H0) eq_refl)).
  - exact (proj2 (proj2 (ExtrasJobs.status_404_or_record jobs0 "job-1" "" H0) job0 eq_refl)).
Defined.

End ExtrasJobs.

Module ExtrasStore.
Import Pipeline.

(** X10: the day-by-day pipeline never deletes or changes a row of
    [itinerary_items]: it only appends rows of its own trip, each the
    [save_itinerary_items] row of an item. *)
Theorem generate_only_appends jid tid now answer save_fail trip s r s' :
  generate_itinerary_async jid tid now answer save_fail trip s = (r, s') ->
  exists added, db s' = (db s ++ added)%list /\
    Forall (fun p => fst p = tid /\ exists it, snd p = to_db_row tid it) added.
Proof. intros H. exact (DbFacts.generate_db jid tid now answer save_fail trip s r s' H). Qed.

Lemma generate_only_appends_witness :
  exists r s', generate_itinerary_async "job-1" "trip-1" "t1" (fun _ _ => Raised "timeout")
                 (fun _ => None) (Some (trip_of ["Tokyo, Japan"] 3)) st0 = (r, s') /\
    length (db s') = 3%nat /\
    exists added, db s' = (db st0 ++ added)%list /\
      Forall (fun p => fst p = "trip-1" /\ exists it, snd p = to_db_row "trip-1" it) added.
Proof.
  destruct (generate_itinerary_async "job-1" "trip-1" "t1" (fun _ _ => Raised "timeout")
              (fun _ => None) (Some (trip_of ["Tokyo, Japan"] 3)) st0) as [r s'] eqn:E.
  exists r, s'. split; [reflexivity|]. split.
  - vm_compute in E. injection E as _ <-. reflexivity.
  - exact (ExtrasStore.generate_only_appends _ _ _ _ _ _ _ _ _ E).
Defined.

(** X11: the rows a modification run leaves.  Other trips' rows are
    kept in order.  With the trip found and no database error, the
    trip's rows become exactly the rows of the modified items; if the
    insert fails after the delete, the trip is left with no row; if the
    delete fails or the trip is not found, nothing changes. *)
Theorem modify_rows jid tid now answer df inf trip s r s' :
  modify_itinerary_async jid tid now answer df inf trip s = (r, s') ->
  let existing := map snd (filter (fun '(t, _) => String.eqb t tid) (db s)) in
  let others := filter (fun '(t, _) => negb (String.eqb t tid)) (db s) in
  (forall t, trip = Some t -> df = None -> inf = None ->
     db s' = (others ++ map (fun row => (tid, row))
                (map (to_db_row tid) (ItineraryAgent.modify_itinerary existing t answer)))%list) /\
  (forall t e, trip = Some t -> df = None -> inf = Some e -> db s' = others) /\
  (forall e, df = Some e -> db s' = db s) /\
  (trip = None -> db s' = db s).
Proof.
  intros H existing others. split; [|split; [|split]].
  - intros t -> -> ->. cbn in H. injection H as _ <-. reflexivity.
  - intros t e -> -> ->. cbn in H. injection H as _ <-. reflexivity.
  - intros e ->. destruct trip; cbn in H; injection H as _ <-; reflexivity.
  - intros ->. cbn in H. injection H as _ <-. reflexivity.
Qed.

Lemma modify_rows_witness :
  exists r s', modify_itinerary_async "job-1" "trip-1" "t1" (Raised "timeout") None (Some "boom")
                 (Some (trip_of ["Tokyo, Japan"] 3)) st_rows = (r, s') /\
    db s' = [("trip-2", to_db_row "trip-2" [])].
Proof.
  destruct (modify_itinerary_async "job-1" "trip-1" "t1" (Raised "timeout") None (Some "boom")
              (Some (trip_of ["Tokyo, Japan"] 3)) st_rows) as [r s'] eqn:E.
  exists r, s'. split; [reflexivity|].
  exact (proj1 (proj2 (ExtrasStore.modify_rows _ _ _ _ _ _ _ _ _ _ E)) _ "boom" eq_refl eq_refl eq_refl).
Defined.

End ExtrasStore.

Module ExtrasItinerary.
Import ItineraryAgentExt.

(** X4: with at least one destination, [_get_fallback_itinerary] returns
    two items per day, morning then afternoon, day [d] (from 0) at
    [destinations[d % len]], with [order_index] equal to the item's
    position; with no destination and [num_days >= 1] it raises
    [ZeroDivisionError]; [num_days <= 0] gives no item. *)
Theorem fallback_itinerary_shape start dests (N : Z) :
  (dests <> [] ->
   get_fallback_itinerary start dests N =
     POk (flat_map (fallback_day start dests) (seq 0 (Z.to_nat N))) /\
   length (flat_map (fallback_day start dests) (seq 0 (Z.to_nat N))) = (2 * Z.to_nat N)%nat) /\
  (dests = [] -> (1 <= N)%Z -> get_fallback_itinerary start dests N = PExc "integer modulo by zero") /\
  ((N <= 0)%Z -> get_fallback_itinerary start dests N = POk []).
Proof.
  unfold get_fallback_itinerary. split; [|split].
  - intros Hne. split.
    + rewrite (ItineraryExtFacts.fallback_loop_closed start dests Hne); reflexivity.
    + rewrite ItineraryExtFacts.fallback_day_length, length_seq. reflexivity.
  - intros -> HN. destruct (Z.to_nat N) eqn:E; [lia|reflexivity].
  - intros HN. replace (Z.to_nat N) with O by lia. reflexivity.
Qed.

(** X5: when the model call raises or its text does not parse, a trip
    whose end date is not before its start date gets the fallback
    itinerary of [days + 1] days: [2 * (days + 1)] items if it has a
    destination, [ZeroDivisionError] if it has none. *)
Theorem generate_itinerary_fallback (t : Trip) (answer : LLMOut) :
  (0 <= days_between (trip_start t) (trip_end t))%Z ->
  (forall c, answer = Returned c ->
     exists e, ItineraryAgent.parse_itinerary_response c (JStr (fmt_date (trip_start t))) = PExc e) ->
  (destinations t <> [] -> exists items, generate_itinerary t answer = POk items /\
     length items = (2 * S (Z.to_nat (days_between (trip_start t) (trip_end t))))%nat) /\
  (destinations t = [] -> generate_itinerary t answer = PExc "integer modulo by zero").
Proof.
  intros Hd Hp.
  assert (Hg : generate_itinerary t answer =
               get_fallback_itinerary (trip_start t) (destinations t)
                 (days_between (trip_start t) (trip_end t) + 1)).
  { unfold generate_itinerary. destruct answer as [e|c]; [reflexivity|].
    destruct (Hp c eq_refl) as [e ->]. reflexivity. }
  rewrite Hg. unfold get_fallback_itinerary.
  replace (Z.to_nat (days_between (trip_start t) (trip_end t) + 1))
    with (S (Z.to_nat (days_between (trip_start t) (trip_end t)))) by lia.
  split.
  - intros Hne. rewrite (ItineraryExtFacts.fallback_loop_closed _ _ Hne) by reflexivity.
    eexists; split; [reflexivity|]. simpl. rewrite ItineraryExtFacts.fallback_day_length, length_seq.
    lia.
  - intros ->. reflexivity.
Qed.

Lemma generate_itinerary_fallback_witness :
  (0 <= days_between (trip_start (trip_of ["Tokyo, Japan"] 3)) (trip_end (trip_of ["Tokyo, Japan"] 3)))%Z /\
  exists items, generate_itinerary (trip_of ["Tokyo, Japan"] 3) (Raised "timeout") = POk items /\
    length items = 6%nat.
Proof.
  assert (Hd : days_between (trip_start (trip_of ["Tokyo, Japan"] 3))
                 (trip_end (trip_of ["Tokyo, Japan"] 3)) = 2%Z) by reflexivity.
  assert (H0 : (0 <= days_between (trip_start (trip_of ["Tokyo, Japan"] 3))
                 (trip_end (trip_of ["Tokyo, Japan"] 3)))%Z) by (rewrite Hd; lia).
  split; [exact H0|].
  destruct (proj1 (ExtrasItinerary.generate_itinerary_fallback (trip_of ["Tokyo, Japan"] 3)
                     (Raised "timeout") H0 (fun c Hc => ltac:(discriminate Hc))) ltac:(discriminate))
    as (items & E & Hl).
  exists items. split; [exact E|]. rewrite Hl, Hd. reflexivity.
Defined.

(** X6: when [_parse_itinerary_response] succeeds, the cleaned text
    decodes to a JSON list with one item per element, every item has
    exactly the ten keys of [itinerary_keys] in that order, and an
    element without [order_index] gets its position; a list holding a
    non-object element makes the parse raise. *)
Theorem parse_itinerary_items (text : string) (sd : JVal) :
  (forall items, ItineraryAgent.parse_itinerary_response text sd = POk items ->
     exists l, json_loads (ItineraryAgent.clean_fences text) = Some (JArr l) /\
       length items = length l /\
       Forall (fun it => map fst it = itinerary_keys) items /\
       forall n kv it, nth_error l n = Some (JObj kv) -> nth_error items n = Some it ->
         TaskAgent.has_key kv "order_index" = false ->
         jget it "order_index" JNull = JNum (str_of_nat n)) /\
  (forall l v, json_loads (ItineraryAgent.clean_fences text) = Some (JArr l) ->
     In v l -> (forall kv, v <> JObj kv) ->
     exists e, ItineraryAgent.parse_itinerary_response text sd = PExc e).
Proof.
  unfold ItineraryAgent.parse_itinerary_response. split.
  - intros items H. destruct (json_loads (ItineraryAgent.clean_fences text)) as [v|]; [|discriminate].
    destruct v; try discriminate H. exists l. split; [reflexivity|].
    exact (ItineraryExtFacts.validate_items_ok sd l 0 items H).
  - intros l v -> Hin Hv. exact (ItineraryExtFacts.validate_items_non_object sd l 0 v Hin Hv).
Qed.

End ExtrasItinerary.

Module ExtrasTasks.
Import TaskAgent Pipeline.

(** X8: [_get_fallback_tasks] gives [2n + 4] tasks for [n >= 1]
    destinations (flights, insurance, one accommodation task per
    destination, one transport task per consecutive pair, then bank,
    passport, packing) and 5 for none. *)
Theorem fallback_tasks_count (dests : list string) :
  length (get_fallback_tasks dests) =
    match dests with [] => 5%nat | _ :: _ => (2 * length dests + 4)%nat end.
Proof.
  unfold get_fallback_tasks. rewrite !length_app, length_map, TaskExtFacts.transport_tasks_length.
  destruct dests; simpl; lia.
Qed.

(** X9: a task-generation job that ends [completed] records a
    [tasks_count] of at least 1: [generate_tasks] never returns an empty
    list, whatever the specialists and the model return. *)
Theorem task_job_count jid tid now visa vac answer save_fail (t : Trip) s r s' (j : Job) :
  TaskPipeline.generate_tasks_async jid tid now visa vac answer save_fail (Some t) s = (r, s') ->
  jobs s' !! jid = Some j -> status j = "completed" ->
  result j = Some [("tasks_count",
                    Z.of_nat (length (generate_tasks visa vac answer (destinations t))))] /\
  (1 <= Z.of_nat (length (generate_tasks visa vac answer (destinations t))))%Z.
Proof.
  intros H Hj Hst.
  assert (Hn := TaskExtFacts.generate_tasks_nonempty visa vac answer (destinations t)).
  split; [|destruct (generate_tasks visa vac answer (destinations t)); [congruence|simpl; lia]].
  destruct save_fail as [e|]; cbn in H; injection H as <- <-; simpl in Hj.
  - apply RegistryFacts.update_lookup_inv in Hj as (j0 & _ & _ & ->). discriminate.
  - apply RegistryFacts.update_lookup_inv in Hj as (j0 & _ & _ & ->). reflexivity.
Qed.

Lemma task_job_count_witness :
  exists r s', TaskPipeline.generate_tasks_async "job-1" "trip-1" "t1" [] [] (Raised "timeout") None
                 (Some (trip_of ["Tokyo, Japan"] 3)) st0 = (r, s') /\
    jobs s' !! "job-1" = Some (mkJob "job-1" "trip-1" "itinerary_generation" "completed" 100
                                 (Some "Tasks generated successfully") (Some [("tasks_count", 6%Z)])
                                 None "t0" "t1") /\
    (1 <= Z.of_nat (length (generate_tasks [] [] (Raised "timeout") ["Tokyo, Japan"])))%Z.
Proof.
  destruct (TaskPipeline.generate_tasks_async "job-1" "trip-1" "t1" [] [] (Raised "timeout") None
              (Some (trip_of ["Tokyo, Japan"] 3)) st0) as [r s'] eqn:E.
  assert (Hj : jobs s' !! "job-1" = Some (mkJob "job-1" "trip-1" "itinerary_generation" "completed" 100
                                 (Some "Tasks generated successfully") (Some [("tasks_count", 6%Z)])
                                 None "t0" "t1"))
    by (vm_compute in E; injection E as _ <-; reflexivity).
  exists r, s'. split; [reflexivity|]. split; [exact Hj|].
  exact (proj2 (ExtrasTasks.task_job_count _ _ _ _ _ _ _ (trip_of ["Tokyo, Japan"] 3) _ _ _ _ E Hj eq_refl)).
Defined.

End ExtrasTasks.

Module ExtrasAccommodation.
Import AccommodationAgent.

(** X12: with [range_type] "all", [_determine_range_category] is
    monotone in the price: a higher price never gets a lower category
    (budget, then mid-range, then luxury), whatever the budget per night;
    the thresholds are the float products [budget_per_night * 0.6] and
    [budget_per_night * 1.2], compared exactly with the int price. *)
Theorem range_category_monotone (price price' : Z) (bpn : Q) :
  (price <= price')%Z ->
  (range_rank (determine_range_category price bpn "all") <=
   range_rank (determine_range_category price' bpn "all"))%nat.
Proof.
  intros Hp. unfold determine_range_category. simpl.
  set (t1 := PyDouble.fmul bpn PyDouble.lit_0_6).
  set (t2 := PyDouble.fmul bpn PyDouble.lit_1_2).
  destruct (PyDouble.le_int_float price' t1) eqn:E1'.
  - rewrite (AccommodationFacts.le_int_float_mono price price' t1 Hp E1'). reflexivity.
  - destruct (PyDouble.le_int_float price' t2) eqn:E2'.
    + rewrite (AccommodationFacts.le_int_float_mono price price' t2 Hp E2').
      destruct (PyDouble.le_int_float price t1); vm_compute; lia.
    + destruct (PyDouble.le_int_float price t1);
        [|destruct (PyDouble.le_int_float price t2)]; vm_compute; lia.
Qed.

Lemma range_category_monotone_witness :
  (7 <= 8)%Z /\
  (range_rank (determine_range_category 7 (6567749456581973 # 562949953421312) "all") <=
   range_rank (determine_range_category 8 (6567749456581973 # 562949953421312) "all"))%nat.
Proof. split; [lia | apply ExtrasAccommodation.range_category_monotone; lia]. Defined.





End ExtrasAccommodation.

Module ExtrasVaccine.
Import VaccineAgent.

(** X15: [_find_applicable_destinations] returns only trip
    destinations, never returns an empty list for a trip with
    destinations, and is either the whole destination list (no
    destination named within 500 characters of a mention) or a list
    without repetition. *)
Theorem applicable_destinations text v dests :
  let r := find_applicable_destinations text v dests in
  incl r dests /\ (dests <> [] -> r <> []) /\ (r = dests \/ NoDup r).
Proof.
  intros r. unfold r, find_applicable_destinations. cbv zeta.
  match goal with |- context [fold_left ?g dests []] => set (acc := fold_left g dests []) end.
  assert (Hacc : NoDup acc /\ incl acc ([] ++ dests)) by (apply VaccineExtFacts.fold_applicable; constructor).
  destruct Hacc as [Hnd Hinc].
  destruct acc as [|a l] eqn:E.
  - split; [apply incl_refl|split; [tauto|left; reflexivity]].
  - split; [exact Hinc|split; [discriminate|right; exact Hnd]].
Qed.

(** X16: [_extract_vaccine_context] never returns an empty string and
    returns at most 303 characters (300 and "..." when the joined lines
    are longer). *)
Theorem vaccine_context_bounds text v :
  extract_vaccine_context text v <> EmptyString /\
  (String.length (extract_vaccine_context text v) <= 303)%nat.
Proof.
  unfold extract_vaccine_context. cbv zeta.
  match goal with |- context [String.concat " " ?l] => generalize (String.concat " " l) end.
  intros c.
  destruct (300 <? String.length c)%nat eqn:Hc.
  - apply Nat.ltb_lt in Hc.
    assert (Hl : String.length (slice c 0 300 ++ "...") = 303%nat).
    { rewrite VaccineExtFacts.length_sapp, VaccineExtFacts.slice_length by lia. reflexivity. }
    destruct (String.eqb (slice c 0 300 ++ "...") EmptyString) eqn:E.
    + apply String.eqb_eq in E. rewrite E in Hl. discriminate.
    + rewrite Hl. split; [intros H; rewrite H in Hl; discriminate|lia].
  - apply Nat.ltb_ge in Hc.
    destruct (String.eqb c EmptyString) eqn:E.
    + split; [discriminate|simpl; lia].
    + split; [intros ->; discriminate|lia].
Qed.

(** X17: [generate_vaccine_tasks] returns no task without an API key,
    without destinations, or when the research call fails or returns an
    empty text; otherwise it returns at most 18 tasks (one per vaccine
    keyword), each with category health, priority high and completed
    false. *)
Theorem vaccine_tasks_bounds client dests research :
  ((client = false \/ dests = [] \/ (exists e, research = Raised e) \/ research = Returned EmptyString) ->
   VaccineAgentExt.generate_vaccine_tasks client dests research = []) /\
  (length (VaccineAgentExt.generate_vaccine_tasks client dests research) <= 18)%nat /\
  Forall health_task (VaccineAgentExt.generate_vaccine_tasks client dests research).
Proof.
  unfold VaccineAgentExt.generate_vaccine_tasks. split; [|split].
  - intros [->|[->|[[e ->]| ->]]]; [reflexivity|destruct client; reflexivity| |];
      destruct client, dests; reflexivity.
  - destruct client; [|simpl; lia]. destruct dests as [|d ds]; [simpl; lia|].
    destruct research as [e|c]; [simpl; lia|]. destruct (String.eqb c EmptyString); [simpl; lia|].
    apply (VaccineExtFacts.tasks_count c (d :: ds)).
  - destruct client; [|constructor]. destruct dests as [|d ds]; [constructor|].
    destruct research as [e|c]; [constructor|]. destruct (String.eqb c EmptyString); [constructor|].
    apply List.Forall_forall. intros t Ht.
    destruct (VaccineFacts.tasks_inv _ _ _ Ht) as (v & ctx & ds' & _ & _ & ->).
    split; [reflexivity|split; reflexivity].
Qed.

End ExtrasVaccine.

Module ExtrasVisa.
Import VisaAgent.

(** X18: a run of [generate_visa_tasks] that returns checks each
    destination country at most once and never the passport country:
    the codes passed to [_check_visa_requirements] have no repetition,
    differ from the passport code, and are codes of trip destinations.
    A citizenship with no code gives one research-the-visa task per
    destination, with category visa, and no check. *)
Theorem visa_checks_distinct VisaInfo gcc check create citizenship dests checks tasks :
  generate_visa_tasks VisaInfo gcc check create citizenship dests = POk (checks, tasks) ->
  NoDup checks /\
  (forall c, In c checks -> (forall p, gcc citizenship = Some p -> c <> p) /\
             exists d, In d dests /\ gcc d = Some c) /\
  (gcc citizenship = None ->
     checks = [] /\ tasks = map create_fallback_visa_task dests /\
     Forall (fun t => jget t "category" JNull = JStr "visa") tasks).
Proof.
  unfold generate_visa_tasks. intros H.
  destruct (gcc citizenship) as [p|] eqn:Ec.
  - destruct (VisaFacts.visa_loop_checks VisaInfo gcc check create p dests [] checks tasks H)
      as [Hn Hc].
    split; [exact Hn|split; [|discriminate]].
    intros c Hin. destruct (Hc c Hin) as (_ & H2 & H3).
    split; [intros p' [= <-]; exact H2|exact H3].
  - injection H as <- <-. split; [constructor|split; [intros c []|]].
    intros _. split; [reflexivity|split; [reflexivity|]].
    unfold get_fallback_visa_tasks. apply List.Forall_forall. intros t Ht.
    apply in_map_iff in Ht as (d & <- & _). reflexivity.
Qed.

Lemma visa_checks_distinct_witness :
  generate_visa_tasks unit gcc_ex (fun _ _ => POk None) (fun _ _ _ => POk []) "USA"
    ["Japan"; "USA"; "Japan"] = POk (["JP"], [create_fallback_visa_task "Japan"]) /\
  NoDup ["JP"].
Proof.
  assert (E : generate_visa_tasks unit gcc_ex (fun _ _ => POk None) (fun _ _ _ => POk []) "USA"
                ["Japan"; "USA"; "Japan"] = POk (["JP"], [create_fallback_visa_task "Japan"]))
    by (vm_compute; reflexivity).
  split; [exact E|]. exact (proj1 (ExtrasVisa.visa_checks_distinct _ _ _ _ _ _ _ _ E)).
Defined.

End ExtrasVisa.

Module ExtrasSingleDay.
Import ItineraryAgent.

(** X19: for a trip with at least one destination, [generate_single_day]
    never raises, whatever the model answers, and every item it returns
    carries the requested day number and that day's date (start date
    plus [day_number - 1] days), even when the model's items said
    otherwise. *)
Theorem single_day_labelled (t : Trip) (d : nat) (answer : LLMOut) :
  destinations t <> [] ->
  exists items, generate_single_day t d answer = POk items /\
    day_labelled d (fmt_date (add_days (trip_start t) (Z.of_nat d - 1))) items.
Proof.
  intros Hne. unfold generate_single_day. cbv zeta.
  set (date := fmt_date (add_days (trip_start t) (Z.of_nat d - 1))).
  destruct (SingleDayFacts.fallback_day_ok t d date Hne) as [fb Hfb].
  destruct answer as [e|c].
  - exists fb. split; [exact Hfb|exact (SingleDayFacts.fallback_day_labelled _ _ _ _ Hfb)].
  - destruct (parse_single_day_response c t d date) as [its|e] eqn:E.
    + exists its. split; [reflexivity|exact (SingleDayFacts.parse_single_day_labelled _ _ _ _ _ E)].
    + exists fb. split; [exact Hfb|exact (SingleDayFacts.fallback_day_labelled _ _ _ _ Hfb)].
Qed.

Lemma single_day_labelled_witness :
  destinations (trip_of ["Tokyo, Japan"] 3) <> [] /\
  exists items, generate_single_day (trip_of ["Tokyo, Japan"] 3) 2 (Raised "timeout") = POk items /\
    day_labelled 2 (fmt_date (add_days (trip_start (trip_of ["Tokyo, Japan"] 3)) (Z.of_nat 2 - 1))) items.
Proof.
  split; [discriminate|]. apply ExtrasSingleDay.single_day_labelled. discriminate.
Defined.

End ExtrasSingleDay.

Module ExtrasPrice.

(** X20: [int(float(x))] gives back [x] for every integer [0 <= x < 2^53]:
    such a price is read exactly. *)
Theorem int_of_double_exact (n : Z) :
  (0 <= n < 2 ^ 53)%Z -> PyFloat.int_of_double (n # 1) = Some n.
Proof.
  intros Hn. unfold PyFloat.int_of_double. cbv zeta. cbn [Qnum Qden].
  destruct (Z.eq_dec n 0%Z) as [->|Hn0]; [reflexivity|].
  replace (n <=? 0)%Z with false by (symmetry; apply Z.leb_gt; lia).
  change (Z.log2 (Z.pos 1)) with 0%Z.
  pose proof (Z.log2_spec n ltac:(lia)) as [Hl Hu].
  assert (HL : (Z.log2 n <= 52)%Z).
  { destruct (Z_le_gt_dec (Z.log2 n) 52) as [|Hg]; [assumption|].
    assert (2 ^ 53 <= 2 ^ Z.log2 n)%Z by (apply Z.pow_le_mono_r; lia). lia. }
  assert (HL0 : (0 <= Z.log2 n)%Z) by apply Z.log2_nonneg.
  set (L := Z.log2 n) in *. clearbody L.
  replace (L - 0 - 52)%Z with (- (52 - L))%Z by lia.
  set (k := (52 - L)%Z).
  assert (Hk : (0 <= k)%Z) by lia.
  assert (Hbig : (2 ^ 52 <= n * 2 ^ k)%Z).
  { replace (2 ^ 52)%Z with (2 ^ L * 2 ^ k)%Z by (rewrite <- Z.pow_add_r by lia; f_equal; lia).
    apply Z.mul_le_mono_nonneg_r; [apply Z.pow_nonneg; lia|lia]. }
  assert (Hpk : (0 < 2 ^ k)%Z) by (apply Z.pow_pos_nonneg; lia).
  assert (Hov : (n < 2 ^ 1024)%Z)
    by (assert (2 ^ 53 <= 2 ^ 1024)%Z by (apply Z.pow_le_mono_r; lia); lia).
  clearbody k.
  destruct (Z.eq_dec k 0%Z) as [Hk0|Hk0].
  - subst k. change (- 0)%Z with 0%Z. change (0 <=? 0)%Z with true. cbn iota.
    change (2 ^ 0)%Z with 1%Z in *. rewrite Z.mul_1_r in *. cbn [fst snd].
    rewrite (Z.div_1_r n). replace (n <? 2 ^ 52)%Z with false by (symmetry; apply Z.ltb_ge; lia).
    cbn iota. change (1 * 2 ^ 0)%Z with 1%Z. change (0 <=? 0)%Z with true. cbn iota. rewrite Z.div_1_r, Z.mod_1_r.
    change (1 <? 2 * 0)%Z with false. change (2 * 0 =? 1)%Z with false. cbn iota beta. cbn [orb andb].
    rewrite Z.shiftl_0_r.
    replace (2 ^ 1024 <=? n)%Z with false; [reflexivity|].
    symmetry. apply Z.leb_gt. lia.
  - replace (0 <=? - k)%Z with false by (symmetry; apply Z.leb_gt; lia).
    cbn iota. cbn [fst snd]. rewrite Z.opp_involutive, Z.div_1_r.
    replace (n * 2 ^ k <? 2 ^ 52)%Z with false by (symmetry; apply Z.ltb_ge; lia).
    cbn iota. replace (0 <=? - k)%Z with false by (symmetry; apply Z.leb_gt; lia).
    cbn iota. rewrite Z.opp_involutive, Z.div_1_r, Z.mod_1_r.
    change (Z.pos 1 <? 2 * 0)%Z with false. change (2 * 0 =? Z.pos 1)%Z with false. cbn iota.
    cbn [orb andb].
    rewrite Z.shiftl_opp_r, Z.shiftr_div_pow2, Z.div_mul by lia.
    replace (2 ^ 1024 <=? n)%Z with false; [reflexivity|].
    symmetry. apply Z.leb_gt. lia.
Qed.

Lemma int_of_double_exact_witness :
  (0 <= 1500 < 2 ^ 53)%Z /\ PyFloat.int_of_double (1500 # 1) = Some 1500%Z.
Proof. split; [lia | apply ExtrasPrice.int_of_double_exact; lia]. Defined.

End ExtrasPrice.
